(** * UDK-04-10 RS-485 dimmer integration: frame codec, bus link and channel
    controller, embedded from [custom_components/ha_udk_0410_dimmer/light.py]
    and [custom_components/udk_0410_dimmer/light.py].

    Python integers are [Z]; a [bytes]/[bytearray] value is a [list Z] whose
    elements lie in [0, 255]; a raised exception is the [Raise] branch of
    [res]. *)

From Stdlib Require Import ZArith List Bool Lia QArith Qminmax.
Import ListNotations.
Open Scope Z_scope.

(** ** Exceptions and results *)

Inductive exn : Type :=
| ValueError
| TypeError
| OverflowError
| IndexError
| OSError.

Inductive res (A : Type) : Type :=
| Ok (a : A)
| Raise (e : exn).

Arguments Ok {A} a.
Arguments Raise {A} e.

Definition res_bind {A B : Type} (m : res A) (k : A -> res B) : res B :=
  match m with
  | Ok a => k a
  | Raise e => Raise e
  end.

Notation "x <- m ;; k" := (res_bind m (fun x => k))
  (at level 61, m at next level, right associativity).

(** ** The Python primitives the integration relies on *)

Module Py.

(** [bytes(l)] for a list of ints: [ValueError] unless every element is in
    [range(256)]. *)
Definition is_byte (x : Z) : bool := (0 <=? x) && (x <? 256).

Definition bytes (l : list Z) : res (list Z) :=
  if forallb is_byte l then Ok l else Raise ValueError.

(** Index normalisation of [l[i]]: a negative index counts from the end,
    anything still outside [0, len) is an [IndexError]. *)
Definition index (len i : Z) : res nat :=
  let j := if i <? 0 then i + len else i in
  if (0 <=? j) && (j <? len) then Ok (Z.to_nat j) else Raise IndexError.

Fixpoint update (l : list Z) (n : nat) (v : Z) : list Z :=
  match l, n with
  | [], _ => []
  | _ :: t, O => v :: t
  | h :: t, S n' => h :: update t n' v
  end.

(** [l[i] = v] *)
Definition setitem (l : list Z) (i v : Z) : res (list Z) :=
  n <- index (Z.of_nat (length l)) i ;;
  Ok (update l n v).

(** [l[i]] *)
Definition getitem (l : list Z) (i : Z) : res Z :=
  n <- index (Z.of_nat (length l)) i ;;
  Ok (nth n l 0).

(** [sum(l)] *)
Definition sum (l : list Z) : Z := fold_left Z.add l 0.

(** [l[start:]] *)
Definition slice_from (start : Z) (l : list Z) : list Z :=
  let len := Z.of_nat (length l) in
  let s := if start <? 0 then Z.max 0 (len + start) else Z.min start len in
  skipn (Z.to_nat s) l.

(** [buf.startswith(p)], the test [contains] repeats at every offset. *)
Fixpoint startswith (p buf : list Z) : bool :=
  match p, buf with
  | [], _ => true
  | _ :: _, [] => false
  | x :: p', y :: buf' => (x =? y) && startswith p' buf'
  end.

(** [p in buf] for byte strings: contiguous sub-sequence search. *)
Fixpoint contains (p buf : list Z) : bool :=
  startswith p buf ||
  match buf with
  | [] => false
  | _ :: buf' => contains p buf'
  end.

End Py.

(** ** Frame codec (shared by both integrations) *)

Definition SYNC_BYTE : Z := 0xFF.
Definition START_BYTE : Z := 0xFE.
Definition STOP_BYTE : Z := 0xFF.
Definition CMD_SET : Z := 0x57.

(** [Rs485Dimmer._build_data_array] / [Udk0410DimmerChannel._build_data_array];
    the first argument is [self.dimmer_index] (resp. [self._channel]).  [level]
    and [dimm_time_s] are ints already, so [int(...)] returns them. *)
Definition _build_data_array (dimmer_index level dimm_time_s : Z) : res (list Z) :=
  let levels := [1; 1; 1; 1] in
  let times := [5; 5; 5; 5] in
  let idx := Z.max 0 (Z.min 3 (dimmer_index - 1)) in
  levels <- Py.setitem levels idx (Z.max 0 (Z.min 255 level)) ;;
  times <- Py.setitem times idx (Z.max 0 (Z.min 255 dimm_time_s)) ;;
  fold_left
    (fun acc i =>
       data <- acc ;;
       l <- Py.getitem levels i ;;
       t <- Py.getitem times i ;;
       Ok (data ++ [l; t]))
    [0; 1; 2; 3] (Ok []).

(** [Udk0410DimmerChannel._checksum_7bit]; [Rs485Dimmer] writes the same
    expression inline. *)
Definition _checksum_7bit (payload : list Z) : Z :=
  Z.land (Z.land (Py.sum payload) 0xFF) 0x7F.

(** [Udk0410DimmerChannel._build_set_message]; [Rs485Dimmer.async_turn_on] and
    [async_turn_off] build the message with the same three statements. *)
Definition _build_set_message (address dimmer_index level dimm_time_s : Z)
  : res (list Z) :=
  data <- _build_data_array dimmer_index level dimm_time_s ;;
  let payload := [address; CMD_SET] ++ data in
  let checksum := _checksum_7bit payload in
  Py.bytes ([SYNC_BYTE; START_BYTE; address; CMD_SET] ++ data ++ [checksum; STOP_BYTE]).

(** [Rs485Dimmer._ack_pattern] *)
Definition _ack_pattern (module_address : Z) : res (list Z) :=
  Py.bytes [0xFE; module_address; 0x06; 0xFF].

(** [Udk0410DimmerChannel._is_ack] of the older integration. *)
Definition _is_ack (address : Z) (response : list Z) : bool :=
  (4 <=? Z.of_nat (length response))
  && (nth 0 response 0 =? 0xFE)
  && (nth 1 response 0 =? address)
  && (nth 2 response 0 =? 0x06)
  && (nth 3 response 0 =? 0xFF).

(** What the specification calls the clamped value of a level or fade time. *)
Definition clamp_byte (x : Z) : Z := Z.max 0 (Z.min 255 x).

(** The payload pair of channel [i] in a frame addressed to channel [c]. *)
Definition pair_for (c level fade i : Z) : list Z :=
  if i =? c then [clamp_byte level; clamp_byte fade] else [1; 5].

Definition payload_for (c level fade : Z) : list Z :=
  flat_map (pair_for c level fade) [1; 2; 3; 4].

(** ** The "transition" argument

    [kwargs.get("transition")] is [None] when the caller gave none, a float
    when the value is numeric (what [float(v)] returns: a finite value, an
    infinity or a NaN), and otherwise a value on which [float] raises.  A
    finite float is the rational it denotes; [int] of it is exact. *)

Inductive pyfloat : Type :=
| Finite (q : Q)
| Infinity (negative : bool)
| NaN.

Inductive pyval : Type :=
| VNone
| VFloat (x : pyfloat)
| VNonNumeric.

(** [float(v)] *)
Definition py_float (v : pyval) : res pyfloat :=
  match v with
  | VFloat x => Ok x
  | VNone => Raise TypeError
  | VNonNumeric => Raise ValueError
  end.

(** [int(x)] for a float: truncation toward zero; [OverflowError] on an
    infinity, [ValueError] on a NaN. *)
Definition py_int (x : pyfloat) : res Z :=
  match x with
  | Finite q => Ok (Z.quot (Qnum q) (QDen q))
  | Infinity _ => Raise OverflowError
  | NaN => Raise ValueError
  end.

(** [try: m  except Exception: handler] *)
Definition try_except {A : Type} (m : res A) (handler : res A) : res A :=
  match m with
  | Ok a => Ok a
  | Raise _ => handler
  end.

(** The head of [async_turn_on] / [async_turn_off] (light.py 262-270 and
    300-308; 170-174 and 186-190 in the older integration). *)
Definition dimm_time_of_transition (transition : pyval) : res Z :=
  match transition with
  | VNone => Ok 5
  | _ => try_except (x <- py_float transition ;; py_int x) (Ok 5)
  end.

(** ** The serial link as the integration sees it

    Time is rational seconds.  The environment is scripted: [clock] gives the
    successive readings of [time.monotonic()], [rx] the outcomes of the
    successive [asyncio.wait_for(self._reader.read(1024), timeout=...)] calls
    (silence once the script is used up), [wr] those of the successive
    write-and-drain calls.  A script may pair any outcome with any timeout and
    any clock reading, so what holds for every script holds for every device.
    [trace] records every effect in order.  Logging is left out. *)

Inductive read_outcome : Type :=
| Chunk (data : list Z)
| ReadTimeout
| ReadFailure.

Inductive event : Type :=
| EvAcquire
| EvRelease
| EvClock (t : Q)
| EvRead (timeout : Q) (r : read_outcome)
| EvWrite (message : list Z) (ok : bool).

Record World : Type := mkWorld {
  reader_open : bool;
  writer_open : bool;
  locked : bool;
  clock : nat -> Q;
  ticks : nat;
  rx : list read_outcome;
  wr : list bool;
  trace : list event
}.

Definition log (e : event) (w : World) : World :=
  mkWorld (reader_open w) (writer_open w) (locked w) (clock w) (ticks w)
          (rx w) (wr w) (trace w ++ [e]).

Definition set_locked (b : bool) (w : World) : World :=
  mkWorld (reader_open w) (writer_open w) b (clock w) (ticks w)
          (rx w) (wr w) (trace w).

(** [time.monotonic()] *)
Definition monotonic (w : World) : Q * World :=
  let t := clock w (ticks w) in
  (t, log (EvClock t)
        (mkWorld (reader_open w) (writer_open w) (locked w) (clock w)
                 (S (ticks w)) (rx w) (wr w) (trace w))).

(** [await asyncio.wait_for(self._reader.read(1024), timeout=timeout)] with
    its three outcomes: a chunk, [asyncio.TimeoutError], another exception. *)
Definition wait_for_read (timeout : Q) (w : World) : read_outcome * World :=
  let r := hd ReadTimeout (rx w) in
  (r, log (EvRead timeout r)
        (mkWorld (reader_open w) (writer_open w) (locked w) (clock w)
                 (ticks w) (tl (rx w)) (wr w) (trace w))).

(** [self._writer.write(message); await self._writer.drain()]: [true] when
    neither raises. *)
Definition write_drain (message : list Z) (w : World) : bool * World :=
  let ok := hd true (wr w) in
  (ok, log (EvWrite message ok)
         (mkWorld (reader_open w) (writer_open w) (locked w) (clock w)
                  (ticks w) (rx w) (tl (wr w)) (trace w))).

(** A call either returns or raises, in a new world; [None] stands for a call
    that has not returned within the fuel given to its loops, or that waits
    for a lock nobody releases. *)
Definition run (A : Type) : Type := option (res A * World).

(** [async with self._lock: body]: the lock is released when the body
    returns and when it raises. *)
Definition async_with_lock {A : Type} (body : World -> run A) (w : World) : run A :=
  if locked w then None
  else
    match body (set_locked true (log EvAcquire w)) with
    | None => None
    | Some (r, w') => Some (r, set_locked false (log EvRelease w'))
    end.

Definition Qltb (a b : Q) : bool := negb (Qle_bool b a).

(** The [while] loop of [Rs485Module._flush_input]. *)
Fixpoint flush_loop (fuel : nat) (deadline : Q) (flushed : list Z) (w : World)
  : run (list Z) :=
  match fuel with
  | O => None
  | S fuel' =>
      let (now, w1) := monotonic w in
      if Qltb now deadline then
        let (r, w2) := wait_for_read (1 # 100) w1 in
        match r with
        | ReadTimeout => Some (Ok flushed, w2)
        | ReadFailure => Some (Raise OSError, w2)
        | Chunk [] => Some (Ok flushed, w2)
        | Chunk chunk => flush_loop fuel' deadline (flushed ++ chunk) w2
        end
      else Some (Ok flushed, w1)
  end.

(** [Rs485Module._flush_input] *)
Definition _flush_input (fuel : nat) (flush_window_s : Q) (w : World) : run (list Z) :=
  if negb (reader_open w) then Some (Ok [], w)
  else
    let (t0, w1) := monotonic w in
    flush_loop fuel (t0 + flush_window_s)%Q [] w1.

(** [chunk_timeout = min(read_chunk_timeout, max(0.01, remaining))] *)
Definition chunk_timeout_of (read_chunk_timeout remaining : Q) : Q :=
  Qmin read_chunk_timeout (Qmax (1 # 100) remaining).

(** [buf.extend(chunk); if len(buf) > max_buffer: buf[:] = buf[-max_buffer:]] *)
Definition extend_bounded (max_buffer : Z) (buf chunk : list Z) : list Z :=
  let buf := buf ++ chunk in
  if Z.of_nat (length buf) >? max_buffer then Py.slice_from (- max_buffer) buf
  else buf.

(** [for p in patterns: if p in buf: return bytes(buf), p] *)
Definition first_match (patterns : list (list Z)) (buf : list Z) : option (list Z) :=
  find (fun p => Py.contains p buf) patterns.

(** The read loop of [Rs485Module.send_and_wait_for] (light.py 110-153). *)
Fixpoint read_loop (fuel : nat) (patterns : list (list Z))
  (deadline read_chunk_timeout : Q) (max_buffer : Z) (buf : list Z) (w : World)
  : option ((list Z * option (list Z)) * World) :=
  match fuel with
  | O => None
  | S fuel' =>
      let (now, w1) := monotonic w in
      if Qltb now deadline then
        let (now', w2) := monotonic w1 in
        let remaining := (deadline - now')%Q in
        let chunk_timeout := chunk_timeout_of read_chunk_timeout remaining in
        let (r, w3) := wait_for_read chunk_timeout w2 in
        match r with
        | ReadTimeout =>
            read_loop fuel' patterns deadline read_chunk_timeout max_buffer buf w3
        | ReadFailure => Some ((buf, None), w3)
        | Chunk [] =>
            read_loop fuel' patterns deadline read_chunk_timeout max_buffer buf w3
        | Chunk chunk =>
            let buf := extend_bounded max_buffer buf chunk in
            match first_match patterns buf with
            | Some p => Some ((buf, Some p), w3)
            | None =>
                read_loop fuel' patterns deadline read_chunk_timeout max_buffer buf w3
            end
        end
      else Some ((buf, None), w1)
  end.

(** The body of the [async with] block of [send_and_wait_for]. *)
Definition locked_body (fuel : nat) (message : list Z) (patterns : list (list Z))
  (timeout_total read_chunk_timeout : Q) (max_buffer : Z) (flush_before_send : bool)
  (w : World) : run (list Z * option (list Z)) :=
  match (if flush_before_send then _flush_input fuel (8 # 100) w
         else Some (Ok [], w)) with
  | None => None
  | Some (Raise e, w1) => Some (Raise e, w1)
  | Some (Ok _, w1) =>
      let (ok, w2) := write_drain message w1 in
      if ok then
        let (t0, w3) := monotonic w2 in
        match read_loop fuel patterns (t0 + timeout_total)%Q read_chunk_timeout
                max_buffer [] w3 with
        | None => None
        | Some (r, w4) => Some (Ok r, w4)
        end
      else Some (Ok ([], None), w2)
  end.

(** [Rs485Module.send_and_wait_for] *)
Definition send_and_wait_for (fuel : nat) (message : list Z)
  (patterns : list (list Z)) (timeout_total read_chunk_timeout : Q)
  (max_buffer : Z) (flush_before_send : bool) (w : World)
  : run (list Z * option (list Z)) :=
  if negb (writer_open w) || negb (reader_open w) then Some (Ok ([], None), w)
  else
    async_with_lock
      (locked_body fuel message patterns timeout_total read_chunk_timeout
         max_buffer flush_before_send) w.

(** ** Channel controller: [Rs485Dimmer]

    The controller reaches the bus through [self.module.send_and_wait_for];
    it is written once for any object with that method. *)

Record Rs485Dimmer : Type := mkDimmer {
  module_address : Z;
  dimmer_index : Z;
  _is_on : bool;
  _brightness : Z
}.

(** [matched == ack_pat], where [matched] is [None] or the pattern found. *)
Definition matched_is (matched : option (list Z)) (ack_pat : list Z) : bool :=
  match matched with
  | Some m => if list_eq_dec Z.eq_dec m ack_pat then true else false
  | None => false
  end.

Section Controller.

Variable Link : Type.

(** [self.module.send_and_wait_for(message, patterns=..., timeout_total=...,
    read_chunk_timeout=..., flush_before_send=True)] *)
Variable transact :
  list Z -> list (list Z) -> Q -> Q -> Link ->
  option (res (list Z * option (list Z)) * Link).

(** The [for attempt in range(1, max_wiederholungen + 1)] loop, by the number
    of attempts left. *)
Fixpoint retry (attempts : nat) (message ack_pat : list Z)
  (timeout_total read_chunk_timeout : Q) (l : Link) : option (res bool * Link) :=
  match attempts with
  | O => Some (Ok false, l)
  | S attempts' =>
      match transact message [ack_pat] timeout_total read_chunk_timeout l with
      | None => None
      | Some (Raise e, l') => Some (Raise e, l')
      | Some (Ok (_, matched), l') =>
          if matched_is matched ack_pat then Some (Ok true, l')
          else retry attempts' message ack_pat timeout_total read_chunk_timeout l'
      end
  end.

(** [Rs485Dimmer.sende_befehl_mit_ack] *)
Definition sende_befehl_mit_ack (self : Rs485Dimmer) (message : list Z)
  (max_wiederholungen : Z) (timeout_total read_chunk_timeout : Q) (l : Link)
  : option (res bool * Link) :=
  match _ack_pattern (module_address self) with
  | Raise e => Some (Raise e, l)
  | Ok ack_pat =>
      retry (Z.to_nat max_wiederholungen) message ack_pat timeout_total
        read_chunk_timeout l
  end.

(** The part of [async_turn_on] and [async_turn_off] up to the outcome of the
    retry loop: fade time, frame, [sende_befehl_mit_ack(message,
    max_wiederholungen=3, timeout_total=0.8, read_chunk_timeout=0.12)]. *)
Definition send_set (self : Rs485Dimmer) (level : Z) (transition : pyval)
  (l : Link) : option (res bool * Link) :=
  match (dimm_time_s <- dimm_time_of_transition transition ;;
         _build_set_message (module_address self) (dimmer_index self) level
           dimm_time_s) with
  | Raise e => Some (Raise e, l)
  | Ok message => sende_befehl_mit_ack self message 3 (8 # 10) (12 # 100) l
  end.

(** [Rs485Dimmer.async_turn_on]; [brightness] is [kwargs.get(ATTR_BRIGHTNESS)].
    The result carries the controller as the call leaves it; publishing the
    state to Home Assistant is left out. *)
Definition async_turn_on (self : Rs485Dimmer) (brightness : option Z)
  (transition : pyval) (l : Link) : option (res unit * (Rs485Dimmer * Link)) :=
  let level := match brightness with Some b => b | None => 255 end in
  match send_set self level transition l with
  | None => None
  | Some (Raise e, l') => Some (Raise e, (self, l'))
  | Some (Ok success, l') =>
      if success then
        Some (Ok tt,
              (mkDimmer (module_address self) (dimmer_index self) true level, l'))
      else Some (Ok tt, (self, l'))
  end.

(** [Rs485Dimmer.async_turn_off] *)
Definition async_turn_off (self : Rs485Dimmer) (transition : pyval) (l : Link)
  : option (res unit * (Rs485Dimmer * Link)) :=
  match send_set self 0 transition l with
  | None => None
  | Some (Raise e, l') => Some (Raise e, (self, l'))
  | Some (Ok success, l') =>
      if success then
        Some (Ok tt,
              (mkDimmer (module_address self) (dimmer_index self) false 0, l'))
      else Some (Ok tt, (self, l'))
  end.

End Controller.

Arguments retry {Link} transact attempts message ack_pat timeout_total
  read_chunk_timeout l.
Arguments sende_befehl_mit_ack {Link} transact self message max_wiederholungen
  timeout_total read_chunk_timeout l.
Arguments send_set {Link} transact self level transition l.
Arguments async_turn_on {Link} transact self brightness transition l.
Arguments async_turn_off {Link} transact self transition l.

(** The controller's bus in the integration: an [Rs485Module], called with the
    default [max_buffer=4096]. *)
Definition module_transact (fuel : nat) (message : list Z)
  (patterns : list (list Z)) (timeout_total read_chunk_timeout : Q) (w : World)
  : option (res (list Z * option (list Z)) * World) :=
  send_and_wait_for fuel message patterns timeout_total read_chunk_timeout 4096
    true w.

(** A bus with a call counter, as a test double would keep one. *)
Definition counted {Link : Type}
  (transact : list Z -> list (list Z) -> Q -> Q -> Link ->
              option (res (list Z * option (list Z)) * Link))
  (message : list Z) (patterns : list (list Z)) (timeout_total read_chunk_timeout : Q)
  (lc : Link * nat) : option (res (list Z * option (list Z)) * (Link * nat)) :=
  match transact message patterns timeout_total read_chunk_timeout (fst lc) with
  | None => None
  | Some (r, l') => Some (r, (l', S (snd lc)))
  end.

(** ** The older integration: [Rs485Bus] and [Udk0410DimmerChannel] *)

Module Legacy.

(** [Rs485Bus.send]: the result is [None], or the bytes of one read. *)
Definition send (message : list Z) (timeout : Q) (w : World)
  : run (option (list Z)) :=
  if negb (writer_open w) || negb (reader_open w) then Some (Ok None, w)
  else
    async_with_lock
      (fun w0 =>
         let (ok, w1) := write_drain message w0 in
         if ok then
           let (r, w2) := wait_for_read timeout w1 in
           match r with
           | Chunk response => Some (Ok (Some response), w2)
           | ReadTimeout => Some (Ok (Some []), w2)
           | ReadFailure => Some (Ok None, w2)
           end
         else Some (Ok None, w1)) w.

Record Udk0410DimmerChannel : Type := mkChannel {
  address : Z;
  _channel : Z;
  _attr_is_on : bool;
  _attr_brightness : Z
}.

(** The [for attempt in range(1, retries + 1)] loop of [_send_with_ack]. *)
Fixpoint send_retry (attempts : nat) (self : Udk0410DimmerChannel)
  (message : list Z) (timeout : Q) (w : World) : run bool :=
  match attempts with
  | O => Some (Ok false, w)
  | S attempts' =>
      match send message timeout w with
      | None => None
      | Some (Raise e, w') => Some (Raise e, w')
      | Some (Ok None, w') => send_retry attempts' self message timeout w'
      | Some (Ok (Some response), w') =>
          if _is_ack (address self) response then Some (Ok true, w')
          else send_retry attempts' self message timeout w'
      end
  end.

(** [Udk0410DimmerChannel._send_with_ack] *)
Definition _send_with_ack (self : Udk0410DimmerChannel) (message : list Z)
  (retries : Z) (timeout : Q) (w : World) : run bool :=
  send_retry (Z.to_nat retries) self message timeout w.

(** The part of [async_turn_on] and [async_turn_off] up to the outcome of
    [self._send_with_ack(message)]. *)
Definition send_set (self : Udk0410DimmerChannel) (level : Z) (transition : pyval)
  (w : World) : run bool :=
  match (dimm_time_s <- dimm_time_of_transition transition ;;
         _build_set_message (address self) (_channel self) level dimm_time_s) with
  | Raise e => Some (Raise e, w)
  | Ok message => _send_with_ack self message 3 (5 # 10) w
  end.

(** [Udk0410DimmerChannel.async_turn_on]; [brightness] is already an int. *)
Definition async_turn_on (self : Udk0410DimmerChannel) (brightness : option Z)
  (transition : pyval) (w : World) : option (res unit * (Udk0410DimmerChannel * World)) :=
  let level := match brightness with Some b => b | None => 255 end in
  match send_set self level transition w with
  | None => None
  | Some (Raise e, w') => Some (Raise e, (self, w'))
  | Some (Ok ok, w') =>
      if ok then
        Some (Ok tt, (mkChannel (address self) (_channel self) true level, w'))
      else Some (Ok tt, (self, w'))
  end.

(** [Udk0410DimmerChannel.async_turn_off] *)
Definition async_turn_off (self : Udk0410DimmerChannel) (transition : pyval)
  (w : World) : option (res unit * (Udk0410DimmerChannel * World)) :=
  match send_set self 0 transition w with
  | None => None
  | Some (Raise e, w') => Some (Raise e, (self, w'))
  | Some (Ok ok, w') =>
      if ok then
        Some (Ok tt, (mkChannel (address self) (_channel self) false 0, w'))
      else Some (Ok tt, (self, w'))
  end.

End Legacy.

(** ** Sample environments *)

(** A clock that advances ten milliseconds between two readings. *)
Definition steady_clock (n : nat) : Q := inject_Z (Z.of_nat n) * (1 # 100).

(** An open, idle link on which the bytes of [chunks] arrive, one per read. *)
Definition open_link (chunks : list read_outcome) : World :=
  mkWorld true true false steady_clock 0 chunks [] [].

(** A link that was never connected. *)
Definition closed_link : World :=
  mkWorld false false false steady_clock 0 [] [] [].

(** The frame and acknowledgement of the specification's scenario: address 5,
    channel 2, level 200, fade 3. *)
Definition sample_message : list Z :=
  [0xFF; 0xFE; 5; 0x57; 1; 5; 200; 3; 1; 5; 1; 5; 57; 0xFF].

Definition sample_ack : list Z := [0xFE; 5; 0x06; 0xFF].

(** A clock that stands at 0 s for three readings, then reads 0.790 s,
    0.795 s and 1 s from then on. *)
Definition late_clock (n : nat) : Q :=
  match n with
  | 0%nat | 1%nat | 2%nat => 0
  | 3%nat => 790 # 1000
  | 4%nat => 795 # 1000
  | _ => 1
  end.

(** ** Vocabulary of the statements *)

(** A transaction with the controller's defaults on link [w] ends with result
    [r] and leaves the lock free. *)
Definition exits_unlocked (w : World) (r : res (list Z * option (list Z))) : Prop :=
  exists w',
    send_and_wait_for 100 sample_message [sample_ack] (8 # 10) (12 # 100) 4096
      true w = Some (r, w')
    /\ locked w' = false.

(** The last [n] elements of [l] (all of [l] when it is shorter). *)
Definition lastn (n : nat) (l : list Z) : list Z := skipn (length l - n) l.

(** The bytes delivered by a run of read outcomes. *)
Definition data_of (outcomes : list read_outcome) : list Z :=
  flat_map (fun r => match r with Chunk d => d | _ => [] end) outcomes.

(** Every read recorded in [evs] directly follows a clock reading [now], and
    its timeout is what [send_and_wait_for] computes from the time remaining
    at [now]. *)
Definition reads_follow_clock (deadline read_chunk_timeout : Q) (evs : list event)
  : Prop :=
  forall pre timeout o post,
    evs = pre ++ EvRead timeout o :: post ->
    exists pre' now,
      pre = pre' ++ [EvClock now]
      /\ timeout = Qmin read_chunk_timeout (Qmax (1 # 100) (deadline - now)).

(** A bus on which no transaction started in a state satisfying [ok] reports
    the acknowledgement [ack]: each returns, without a match for it, in a state
    that satisfies [ok] again. *)
Definition never_acks {Link : Type}
  (transact : list Z -> list (list Z) -> Q -> Q -> Link ->
              option (res (list Z * option (list Z)) * Link))
  (ok : Link -> Prop) (ack : list Z) : Prop :=
  forall message timeout_total read_chunk_timeout l,
    ok l ->
    exists buf found l',
      transact message [ack] timeout_total read_chunk_timeout l
      = Some (Ok (buf, found), l')
      /\ found <> Some ack
      /\ ok l'.

(** Real time passes: the clock of [w] eventually stays at or above any
    bound. *)
Definition clock_unbounded (w : World) : Prop :=
  forall bound : Q, exists n, forall i, (n <= i)%nat -> (bound <= clock w i)%Q.

(** Events other than taking and releasing the lock. *)
Definition is_io (e : event) : Prop := e <> EvAcquire /\ e <> EvRelease.

(** [w'] is [w] after some reads, writes and clock readings: same handles,
    same lock state, same clock, a longer trace. *)
Definition advances (w w' : World) : Prop :=
  reader_open w' = reader_open w
  /\ writer_open w' = writer_open w
  /\ locked w' = locked w
  /\ clock w' = clock w
  /\ exists evs, trace w' = trace w ++ evs /\ Forall is_io evs.

(** Runs the sample transaction on the link of the goal, reads the result off
    the run and lets [released] (a proof that a returned call left the lock
    free) settle the lock. *)
Ltac exit_path released :=
  match goal with
  | |- exits_unlocked ?w ?r =>
      unfold exits_unlocked;
      let E := fresh "E" in
      let E' := fresh "E'" in
      let r1 := fresh "r" in
      let w1 := fresh "w" in
      destruct (send_and_wait_for 100 sample_message [sample_ack] (8 # 10)
                  (12 # 100) 4096 true w) as [[r1 w1] |] eqn:E;
      [ exists w1; split;
        [ pose proof E as E'; vm_compute in E';
          injection E' as E' _; rewrite <- E'; reflexivity
        | exact (proj1 (proj2 (released 100%nat sample_message [sample_ack]
                                 (8 # 10) (12 # 100) 4096 true w w1 r1
                                 eq_refl eq_refl E))) ]
      | vm_compute in E; discriminate E ]
  end.

(** * Properties *)

(** ** Frame codec *)

Lemma startswith_spec (p buf : list Z) :
  Py.startswith p buf = true <-> exists post, buf = p ++ post.
Proof.
  revert buf; induction p as [|x p IH]; intros buf; simpl.
  - split; [intros _; now exists buf | reflexivity].
  - destruct buf as [|y buf].
    + split; [discriminate | intros [post H]; discriminate].
    + rewrite andb_true_iff, Z.eqb_eq, IH. split.
      * intros [-> [post ->]]. now exists post.
      * intros [post H]. injection H as -> ->. split; [reflexivity | now exists post].
Qed.

Lemma contains_spec (p buf : list Z) :
  Py.contains p buf = true <-> exists pre post, buf = pre ++ p ++ post.
Proof.
  induction buf as [|y buf IH]; simpl.
  - rewrite orb_false_r, startswith_spec. split.
    + intros [post H]. now exists [], post.
    + intros [pre [post H]]. destruct pre as [|z pre]; [now exists post | discriminate].
  - rewrite orb_true_iff, startswith_spec, IH. split.
    + intros [[post H] | [pre [post H]]].
      * now exists [], post.
      * exists (y :: pre), post. simpl. now rewrite H.
    + intros [pre [post H]]. destruct pre as [|z pre].
      * left. now exists post.
      * right. injection H as _ H. now exists pre, post.
Qed.

Lemma is_byte_iff (x : Z) : Py.is_byte x = true <-> 0 <= x <= 255.
Proof. unfold Py.is_byte. rewrite andb_true_iff, Z.leb_le, Z.ltb_lt. lia. Qed.

Lemma bytes_ok (l : list Z) :
  Forall (fun x => 0 <= x <= 255) l -> Py.bytes l = Ok l.
Proof.
  intros H. unfold Py.bytes.
  replace (forallb Py.is_byte l) with true; [reflexivity|].
  symmetry. apply forallb_forall. intros x Hx. apply is_byte_iff.
  rewrite Forall_forall in H. now apply H.
Qed.

Lemma bytes_inv (l m : list Z) :
  Py.bytes l = Ok m -> m = l /\ Forall (fun x => 0 <= x <= 255) l.
Proof.
  unfold Py.bytes. destruct (forallb Py.is_byte l) eqn:E; [|discriminate].
  intros H. injection H as <-. split; [reflexivity|].
  apply Forall_forall. intros x Hx. apply is_byte_iff.
  rewrite forallb_forall in E. now apply E.
Qed.

Lemma clamp_byte_range (x : Z) : 0 <= clamp_byte x <= 255.
Proof. unfold clamp_byte. lia. Qed.

Lemma checksum_range (payload : list Z) : 0 <= _checksum_7bit payload <= 127.
Proof.
  unfold _checksum_7bit.
  assert (E : forall x, Z.land x 0x7F = x mod 128).
  { intros x. change 0x7F with (Z.ones 7). now rewrite Z.land_ones by lia. }
  rewrite E.
  pose proof (Z.mod_pos_bound (Z.land (Py.sum payload) 255) 128 ltac:(lia)). lia.
Qed.

Lemma ack_pattern_ok (a : Z) :
  0 <= a <= 255 -> _ack_pattern a = Ok [0xFE; a; 0x06; 0xFF].
Proof.
  intros Ha. unfold _ack_pattern. apply bytes_ok.
  repeat constructor; lia.
Qed.

(** The index clamp of [_build_data_array], channel by channel. *)
Lemma build_data_array_payload (channel level fade : Z) :
  _build_data_array channel level fade
  = Ok (payload_for (Z.max 1 (Z.min 4 channel)) level fade).
Proof.
  unfold _build_data_array.
  assert (channel <= 1 \/ channel = 2 \/ channel = 3 \/ 4 <= channel) as C by lia.
  destruct C as [C | [C | [C | C]]].
  - replace (Z.max 0 (Z.min 3 (channel - 1))) with 0 by lia.
    replace (Z.max 1 (Z.min 4 channel)) with 1 by lia. reflexivity.
  - replace (Z.max 0 (Z.min 3 (channel - 1))) with 1 by lia.
    replace (Z.max 1 (Z.min 4 channel)) with 2 by lia. reflexivity.
  - replace (Z.max 0 (Z.min 3 (channel - 1))) with 2 by lia.
    replace (Z.max 1 (Z.min 4 channel)) with 3 by lia. reflexivity.
  - replace (Z.max 0 (Z.min 3 (channel - 1))) with 3 by lia.
    replace (Z.max 1 (Z.min 4 channel)) with 4 by lia. reflexivity.
Qed.

Lemma payload_for_length (c level fade : Z) :
  length (payload_for c level fade) = 8%nat.
Proof.
  cbv [payload_for pair_for flat_map].
  destruct (1 =? c), (2 =? c), (3 =? c), (4 =? c); reflexivity.
Qed.

Lemma payload_for_bytes (c level fade : Z) :
  Forall (fun b => 0 <= b <= 255) (payload_for c level fade).
Proof.
  pose proof (clamp_byte_range level). pose proof (clamp_byte_range fade).
  cbv [payload_for pair_for flat_map].
  destruct (1 =? c), (2 =? c), (3 =? c), (4 =? c); simpl;
    repeat constructor; lia.
Qed.

Lemma sum_cons2 (a b : Z) (l : list Z) : Py.sum (a :: b :: l) = a + b + Py.sum l.
Proof.
  unfold Py.sum. simpl.
  assert (G : forall l z, fold_left Z.add l z = z + fold_left Z.add l 0).
  { clear. induction l as [|x l IH]; intros z; simpl; [lia|].
    rewrite (IH (z + x)), (IH x). lia. }
  rewrite G. lia.
Qed.

(** C1 (as amended): with a module address that fits a byte, the four-byte
    pattern is [FE a 06 FF]; the recogniser of [send_and_wait_for] ([p in buf])
    answers true exactly when the pattern occurs contiguously somewhere in the
    buffer, whatever surrounds it; [_is_ack] of the older integration answers
    true exactly when the response starts with the pattern. *)
Theorem ack_recognisers (a : Z) (buf : list Z) :
  0 <= a <= 255 ->
  _ack_pattern a = Ok [0xFE; a; 0x06; 0xFF]
  /\ (Py.contains [0xFE; a; 0x06; 0xFF] buf = true
      <-> exists pre post, buf = pre ++ [0xFE; a; 0x06; 0xFF] ++ post)
  /\ (first_match [[0xFE; a; 0x06; 0xFF]] buf = Some [0xFE; a; 0x06; 0xFF]
      <-> exists pre post, buf = pre ++ [0xFE; a; 0x06; 0xFF] ++ post)
  /\ (_is_ack a buf = true <-> exists post, buf = [0xFE; a; 0x06; 0xFF] ++ post).
Proof.
  intros Ha. split; [now apply ack_pattern_ok|].
  split; [apply contains_spec|]. split.
  - rewrite <- contains_spec. unfold first_match. simpl.
    destruct (Py.contains [254; a; 6; 255] buf); split; congruence.
  - unfold _is_ack. split.
    + intros H. repeat (apply andb_true_iff in H; destruct H as [H ?]).
      apply Z.leb_le in H.
      destruct buf as [|b0 [|b1 [|b2 [|b3 post]]]]; simpl in H; try lia.
      simpl in *. exists post.
      repeat match goal with E : (_ =? _) = true |- _ => apply Z.eqb_eq in E end.
      now subst.
    + intros [post ->].
      assert (L : (4 <=? Z.of_nat (length ([254; a; 6; 255] ++ post))) = true).
      { apply Z.leb_le. rewrite length_app. simpl length. lia. }
      rewrite L. cbn [nth app andb]. now rewrite !Z.eqb_refl.
Qed.

Lemma ack_recognisers_witness :
  0 <= 5 <= 255 /\
  (Py.contains [0xFE; 5; 0x06; 0xFF] [0; 0; 0xFE; 5; 0x06; 0xFF; 0] = true
   <-> exists pre post,
       [0; 0; 0xFE; 5; 0x06; 0xFF; 0] = pre ++ [0xFE; 5; 0x06; 0xFF] ++ post).
Proof.
  split; [lia|].
  exact (proj1 (proj2 (ack_recognisers 5 [0; 0; 0xFE; 5; 0x06; 0xFF; 0]
                         ltac:(lia)))).
Defined.

(** C1, counterexample: [_is_ack] rejects a response in which one stray byte
    precedes the acknowledgement, although the four bytes occur contiguously. *)
Lemma is_ack_rejects_leading_byte :
  _is_ack 5 [0; 0xFE; 5; 0x06; 0xFF] = false
  /\ exists pre post, [0; 0xFE; 5; 0x06; 0xFF] = pre ++ [0xFE; 5; 0x06; 0xFF] ++ post.
Proof.
  split; [reflexivity|]. now exists [0], [].
Qed.

(** C2 (as amended): for an address that fits a byte and a channel in 1..4
    the command is the 14-byte sequence
    [FF FE address 57 L1 T1 L2 T2 L3 T3 L4 T4 checksum FF], the pair of the
    addressed channel being the clamped level and fade time, the other three
    [(1, 5)], and the checksum the masked sum of address, opcode and payload;
    the encoder returns it for every level and fade time. *)
Theorem set_frame_layout (address channel level fade : Z) :
  0 <= address <= 255 -> 1 <= channel <= 4 ->
  let payload := payload_for channel level fade in
  let checksum := Z.land (Z.land (address + 0x57 + Py.sum payload) 0xFF) 0x7F in
  _build_set_message address channel level fade
  = Ok ([0xFF; 0xFE; address; 0x57] ++ payload ++ [checksum; 0xFF])
  /\ length ([0xFF; 0xFE; address; 0x57] ++ payload ++ [checksum; 0xFF]) = 14%nat
  /\ length payload = 8%nat
  /\ Forall (fun b => 0 <= b <= 255) payload.
Proof.
  intros Ha Hc payload checksum.
  assert (Hcs : checksum = _checksum_7bit (address :: CMD_SET :: payload)).
  { unfold checksum, _checksum_7bit, CMD_SET. now rewrite sum_cons2. }
  split; [| split; [| split]].
  - unfold _build_set_message.
    rewrite build_data_array_payload.
    replace (Z.max 1 (Z.min 4 channel)) with channel by lia.
    simpl res_bind. fold payload. rewrite <- Hcs.
    apply bytes_ok.
    unfold SYNC_BYTE, START_BYTE, STOP_BYTE, CMD_SET.
    apply Forall_app; split; [repeat constructor; lia|].
    apply Forall_app; split; [apply payload_for_bytes|].
    pose proof (checksum_range (address :: CMD_SET :: payload)) as R.
    rewrite <- Hcs in R.
    repeat constructor; lia.
  - rewrite !length_app. unfold payload. rewrite payload_for_length. reflexivity.
  - apply payload_for_length.
  - apply payload_for_bytes.
Qed.

Lemma set_frame_layout_witness :
  _build_set_message 5 2 200 3
  = Ok [0xFF; 0xFE; 5; 0x57; 1; 5; 200; 3; 1; 5; 1; 5; 57; 0xFF].
Proof.
  exact (proj1 (set_frame_layout 5 2 200 3 ltac:(lia) ltac:(lia))).
Defined.

(** C2, counterexample: the frame for address 5, channel 2, level 200, fade 3
    has fourteen bytes, not twelve. *)
Lemma set_frame_is_not_twelve_bytes :
  exists message,
    _build_set_message 5 2 200 3 = Ok message
    /\ length message = 14%nat /\ length message <> 12%nat.
Proof.
  eexists. split; [reflexivity|]. split; [reflexivity | discriminate].
Qed.

(** C10: whatever the channel index, [_build_data_array] returns a payload of
    exactly eight bytes; an index below 1 fills the pair of channel 1, an index
    above 4 the pair of channel 4, and the other pairs stay [(1, 5)]. *)
Theorem build_data_array_total (channel level fade : Z) :
  exists data,
    _build_data_array channel level fade = Ok data
    /\ length data = 8%nat
    /\ data = payload_for (Z.max 1 (Z.min 4 channel)) level fade
    /\ (channel < 1 ->
        data = [clamp_byte level; clamp_byte fade; 1; 5; 1; 5; 1; 5])
    /\ (4 < channel ->
        data = [1; 5; 1; 5; 1; 5; clamp_byte level; clamp_byte fade]).
Proof.
  exists (payload_for (Z.max 1 (Z.min 4 channel)) level fade).
  split; [apply build_data_array_payload|].
  split; [apply payload_for_length|].
  split; [reflexivity|]. split; intros H.
  - replace (Z.max 1 (Z.min 4 channel)) with 1 by lia. reflexivity.
  - replace (Z.max 1 (Z.min 4 channel)) with 4 by lia. reflexivity.
Qed.

(** ** Transition handling *)

(** [Z.quot] is truncation toward zero of the rational [q]. *)
Lemma quot_truncates (q : Q) :
  let n := Z.quot (Qnum q) (QDen q) in
  ((0 <= q -> inject_Z n <= q /\ q < inject_Z (n + 1))
   /\ (q <= 0 -> inject_Z (n - 1) < q /\ q <= inject_Z n))%Q.
Proof.
  destruct q as [num den]. cbn [Qnum Qden].
  assert (Hd : 0 < Z.pos den) by lia.
  unfold Qle, Qlt. cbn [Qnum Qden inject_Z]. rewrite !Z.mul_1_r. split; intros H.
  - pose proof (Z.mul_quot_le num (Z.pos den) ltac:(lia) ltac:(lia)).
    pose proof (Z.mul_succ_quot_gt num (Z.pos den) ltac:(lia) Hd). lia.
  - pose proof (Z.mul_quot_ge num (Z.pos den) ltac:(lia) ltac:(lia)).
    pose proof (Z.mul_pred_quot_lt num (Z.pos den) ltac:(lia) Hd). lia.
Qed.

(** C8: the transition conversion never raises; a finite fractional value is
    truncated toward zero, a missing or non-numeric value (and a float that has
    no integer value) becomes 5; the frame then carries the result clamped to
    [0, 255] in the fade byte of the addressed channel. *)
Theorem transition_conversion (transition : pyval) (channel level : Z) :
  exists n,
    dimm_time_of_transition transition = Ok n
    /\ (transition = VNone \/ transition = VNonNumeric -> n = 5)
    /\ (forall x, transition = VFloat x -> (forall q, x <> Finite q) -> n = 5)
    /\ (forall q, transition = VFloat (Finite q) ->
        n = Z.quot (Qnum q) (QDen q)
        /\ (0 <= q -> inject_Z n <= q /\ q < inject_Z (n + 1))%Q
        /\ (q <= 0 -> inject_Z (n - 1) < q /\ q <= inject_Z n)%Q)
    /\ _build_data_array channel level n
       = Ok (payload_for (Z.max 1 (Z.min 4 channel)) level n)
    /\ pair_for channel level n channel = [clamp_byte level; clamp_byte n]
    /\ 0 <= clamp_byte n <= 255.
Proof.
  assert (tail : forall n,
             _build_data_array channel level n
             = Ok (payload_for (Z.max 1 (Z.min 4 channel)) level n)
             /\ pair_for channel level n channel = [clamp_byte level; clamp_byte n]
             /\ 0 <= clamp_byte n <= 255).
  { intros n. split; [apply build_data_array_payload|].
    split; [unfold pair_for; now rewrite Z.eqb_refl | apply clamp_byte_range]. }
  destruct transition as [| [q | neg |] |].
  - exists 5. split; [reflexivity|].
    split; [intros _; reflexivity|]. split; [discriminate|].
    split; [discriminate | apply tail].
  - exists (Z.quot (Qnum q) (QDen q)). split; [reflexivity|].
    split; [intros [H | H]; discriminate|].
    split; [intros x H Hx; injection H as <-; now destruct (Hx q)|].
    split; [|apply tail].
    intros q' H. injection H as <-.
    split; [reflexivity | apply quot_truncates].
  - exists 5. split; [reflexivity|].
    split; [intros _; reflexivity|]. split; [intros x _ _; reflexivity|].
    split; [discriminate | apply tail].
  - exists 5. split; [reflexivity|].
    split; [intros _; reflexivity|]. split; [intros x _ _; reflexivity|].
    split; [discriminate | apply tail].
  - exists 5. split; [reflexivity|].
    split; [intros _; reflexivity|]. split; [discriminate|].
    split; [discriminate | apply tail].
Qed.

(** ** The bus link *)

Lemma advances_refl (w : World) : advances w w.
Proof.
  repeat split. exists []. now rewrite app_nil_r.
Qed.

Lemma advances_trans (w1 w2 w3 : World) :
  advances w1 w2 -> advances w2 w3 -> advances w1 w3.
Proof.
  intros (R1 & W1 & L1 & C1 & e1 & T1 & F1) (R2 & W2 & L2 & C2 & e2 & T2 & F2).
  repeat split; try congruence.
  exists (e1 ++ e2). split.
  - now rewrite T2, T1, app_assoc.
  - now apply Forall_app.
Qed.

Lemma monotonic_advances (w w' : World) (t : Q) :
  monotonic w = (t, w') -> advances w w'.
Proof.
  unfold monotonic. intros H. injection H as _ <-.
  repeat split. cbn. eexists. split; [reflexivity|].
  repeat constructor; discriminate.
Qed.

Lemma wait_for_read_advances (timeout : Q) (w w' : World) (r : read_outcome) :
  wait_for_read timeout w = (r, w') -> advances w w'.
Proof.
  unfold wait_for_read. intros H. injection H as _ <-.
  repeat split. cbn. eexists. split; [reflexivity|].
  repeat constructor; discriminate.
Qed.

Lemma write_drain_advances (message : list Z) (w w' : World) (ok : bool) :
  write_drain message w = (ok, w') -> advances w w'.
Proof.
  unfold write_drain. intros H. injection H as _ <-.
  repeat split. cbn. eexists. split; [reflexivity|].
  repeat constructor; discriminate.
Qed.

Lemma flush_loop_advances (fuel : nat) :
  forall deadline flushed w r w',
    flush_loop fuel deadline flushed w = Some (r, w') -> advances w w'.
Proof.
  induction fuel as [|fuel IH]; intros deadline flushed w r w' H;
    cbn [flush_loop] in H; [discriminate|].
  destruct (monotonic w) as [now w1] eqn:E1.
  apply monotonic_advances in E1.
  destruct (Qltb now deadline).
  - destruct (wait_for_read (1 # 100) w1) as [o w2] eqn:E2.
    apply wait_for_read_advances in E2.
    pose proof (advances_trans _ _ _ E1 E2) as A.
    destruct o as [[|b chunk] | |].
    + now injection H as _ <-.
    + apply IH in H. now apply (advances_trans _ _ _ A).
    + now injection H as _ <-.
    + now injection H as _ <-.
  - now injection H as _ <-.
Qed.

Lemma flush_input_advances (fuel : nat) (window : Q) (w w' : World) (r : res (list Z)) :
  _flush_input fuel window w = Some (r, w') -> advances w w'.
Proof.
  unfold _flush_input. destruct (negb (reader_open w)).
  - intros H. injection H as _ <-. apply advances_refl.
  - destruct (monotonic w) as [t0 w1] eqn:E. apply monotonic_advances in E.
    intros H. apply flush_loop_advances in H. now apply (advances_trans _ _ _ E).
Qed.

Lemma read_loop_advances (fuel : nat) :
  forall patterns deadline rct max_buffer buf w r w',
    read_loop fuel patterns deadline rct max_buffer buf w = Some (r, w') ->
    advances w w'.
Proof.
  induction fuel as [|fuel IH]; intros patterns deadline rct max_buffer buf w r w' H;
    cbn [read_loop] in H; [discriminate|].
  destruct (monotonic w) as [now w1] eqn:E1.
  apply monotonic_advances in E1.
  destruct (Qltb now deadline).
  - destruct (monotonic w1) as [now' w2] eqn:E2.
    apply monotonic_advances in E2.
    destruct (wait_for_read _ w2) as [o w3] eqn:E3.
    apply wait_for_read_advances in E3.
    pose proof (advances_trans _ _ _ (advances_trans _ _ _ E1 E2) E3) as A.
    destruct o as [[|b chunk] | |].
    + apply IH in H. now apply (advances_trans _ _ _ A).
    + destruct (first_match patterns _).
      * now injection H as _ <-.
      * apply IH in H. now apply (advances_trans _ _ _ A).
    + apply IH in H. now apply (advances_trans _ _ _ A).
    + now injection H as _ <-.
  - now injection H as _ <-.
Qed.

Lemma locked_body_advances (fuel : nat) (message : list Z)
  (patterns : list (list Z)) (tt rct : Q) (max_buffer : Z) (flush : bool)
  (w w' : World) (r : res (list Z * option (list Z))) :
  locked_body fuel message patterns tt rct max_buffer flush w = Some (r, w') ->
  advances w w'.
Proof.
  unfold locked_body.
  assert (F : forall x,
             (if flush then _flush_input fuel (8 # 100) w else Some (Ok [], w))
             = Some x -> advances w (snd x)).
  { intros [r0 w0]. destruct flush.
    - apply flush_input_advances.
    - intros H. injection H as _ <-. apply advances_refl. }
  destruct (if flush then _ else _) as [[[flushed | e] w1] |]; [| |discriminate].
  - specialize (F _ eq_refl). cbn in F.
    destruct (write_drain message w1) as [ok w2] eqn:E2.
    apply write_drain_advances in E2.
    pose proof (advances_trans _ _ _ F E2) as A.
    destruct ok.
    + destruct (monotonic w2) as [t0 w3] eqn:E3. apply monotonic_advances in E3.
      destruct (read_loop _ _ _ _ _ _ w3) as [[r4 w4] |] eqn:E4; [|discriminate].
      apply read_loop_advances in E4.
      intros H. injection H as _ <-.
      exact (advances_trans _ _ _ (advances_trans _ _ _ A E3) E4).
    + intros H. now injection H as _ <-.
  - specialize (F _ eq_refl). cbn in F. intros H. now injection H as _ <-.
Qed.

(** C4: a call of [send_and_wait_for] on a connected link that returns (with
    a match, at the deadline, after a write error or a read error) or raises
    took the lock once and released it last: the link is unlocked afterwards
    and nothing between the two lock events touches the lock. *)
Theorem lock_released_on_every_exit (fuel : nat) (message : list Z)
  (patterns : list (list Z)) (tt rct : Q) (max_buffer : Z) (flush : bool)
  (w w' : World) (r : res (list Z * option (list Z))) :
  reader_open w = true -> writer_open w = true ->
  send_and_wait_for fuel message patterns tt rct max_buffer flush w = Some (r, w') ->
  locked w = false
  /\ locked w' = false
  /\ exists body,
       trace w' = trace w ++ [EvAcquire] ++ body ++ [EvRelease]
       /\ Forall is_io body.
Proof.
  intros Hr Hw. unfold send_and_wait_for. rewrite Hr, Hw. cbn [negb orb].
  unfold async_with_lock. destruct (locked w) eqn:L; [discriminate|].
  destruct (locked_body _ _ _ _ _ _ _ _) as [[r1 w1] |] eqn:B; [|discriminate].
  intros H. injection H as _ <-.
  apply locked_body_advances in B.
  destruct B as (_ & _ & _ & _ & body & T & F). cbn in T.
  split; [reflexivity|]. split; [reflexivity|].
  exists body. split; [|exact F].
  cbn. rewrite T. now rewrite <- !app_assoc.
Qed.

(** The exits of a transaction, each on a scripted link: a match, the deadline,
    a failed write, a failed read, and a read failure while flushing (which
    raises). *)
Lemma lock_released_witness :
  exits_unlocked (open_link [ReadTimeout; Chunk [0; 0xFE; 5; 0x06; 0xFF]])
    (Ok ([0; 0xFE; 5; 0x06; 0xFF], Some sample_ack))
  /\ exits_unlocked (open_link []) (Ok ([], None))
  /\ exits_unlocked (mkWorld true true false steady_clock 0 [] [false] [])
       (Ok ([], None))
  /\ exits_unlocked (open_link [ReadTimeout; Chunk [9]; ReadFailure])
       (Ok ([9], None))
  /\ exits_unlocked (open_link [ReadFailure]) (Raise OSError).
Proof.
  repeat split; exit_path lock_released_on_every_exit.
Defined.

Lemma unconnected_returns (fuel : nat) (message : list Z)
  (patterns : list (list Z)) (tt rct : Q) (max_buffer : Z) (flush : bool)
  (w : World) :
  reader_open w = false \/ writer_open w = false ->
  send_and_wait_for fuel message patterns tt rct max_buffer flush w
  = Some (Ok ([], None), w).
Proof.
  intros H. unfold send_and_wait_for.
  replace (negb (writer_open w) || negb (reader_open w)) with true; [reflexivity|].
  destruct H as [-> | ->]; cbn; [now rewrite orb_true_r | reflexivity].
Qed.

(** C9: on a link that is not connected [send_and_wait_for] returns the empty
    buffer and no match at once (for any fuel, zero included) and leaves the
    link as it was: lock not taken, nothing read, nothing written, no clock
    reading.  The retry loop counts the call as one failed attempt, and a
    connected link that stays silent until the deadline returns the same
    value. *)
Theorem unconnected_transact_is_a_failed_attempt (fuel : nat) (message : list Z)
  (patterns : list (list Z)) (tt rct : Q) (max_buffer : Z) (flush : bool)
  (w : World) :
  reader_open w = false \/ writer_open w = false ->
  send_and_wait_for fuel message patterns tt rct max_buffer flush w
  = Some (Ok ([], None), w)
  /\ (forall attempts ack calls,
        retry (counted (module_transact fuel)) (S attempts)
          message ack tt rct (w, calls)
        = retry (counted (module_transact fuel)) attempts
            message ack tt rct (w, S calls))
  /\ exists w',
       send_and_wait_for 100 message patterns (8 # 10) (12 # 100) 4096 true
         (open_link [])
       = Some (Ok ([], None), w')
       /\ trace w' <> [].
Proof.
  intros H. split; [now apply unconnected_returns|]. split.
  - intros attempts ack calls. cbn [retry]. unfold counted at 1. cbn [fst snd].
    unfold module_transact at 1. rewrite unconnected_returns by exact H.
    reflexivity.
  - eexists. split; [lazy; reflexivity | discriminate].
Qed.

Lemma unconnected_transact_witness :
  send_and_wait_for 0 sample_message [sample_ack] (8 # 10) (12 # 100) 4096 true
    closed_link
  = Some (Ok ([], None), closed_link).
Proof.
  exact (proj1 (unconnected_transact_is_a_failed_attempt 0 sample_message
                  [sample_ack] (8 # 10) (12 # 100) 4096 true closed_link
                  (or_introl eq_refl))).
Defined.

(** The older [Rs485Bus.send] answers [None] on an unconnected link, again
    without touching it, and [_send_with_ack] moves on to the next attempt. *)
Lemma legacy_unconnected_send (message : list Z) (timeout : Q) (w : World) :
  reader_open w = false \/ writer_open w = false ->
  Legacy.send message timeout w = Some (Ok None, w)
  /\ forall attempts self,
       Legacy.send_retry (S attempts) self message timeout w
       = Legacy.send_retry attempts self message timeout w.
Proof.
  intros H.
  assert (E : Legacy.send message timeout w = Some (Ok None, w)).
  { unfold Legacy.send.
    replace (negb (writer_open w) || negb (reader_open w)) with true; [reflexivity|].
    destruct H as [-> | ->]; cbn; [now rewrite orb_true_r | reflexivity]. }
  split; [exact E|]. intros attempts self. cbn [Legacy.send_retry]. now rewrite E.
Qed.

(** ** Buffer bounding *)

Lemma lastn_length (n : nat) (l : list Z) : (length (lastn n l) <= n)%nat.
Proof. unfold lastn. rewrite length_skipn. lia. Qed.

Lemma lastn_all (n : nat) (l : list Z) : (length l <= n)%nat -> lastn n l = l.
Proof.
  intros H. unfold lastn. now replace (length l - n)%nat with 0%nat by lia.
Qed.

Lemma lastn_lastn_app (n : nat) (s c : list Z) :
  lastn n (lastn n s ++ c) = lastn n (s ++ c).
Proof.
  unfold lastn.
  rewrite !skipn_app, skipn_skipn, !length_app, !length_skipn.
  f_equal; f_equal; lia.
Qed.

Lemma slice_from_neg (m : Z) (l : list Z) :
  1 <= m -> Py.slice_from (- m) l = lastn (Z.to_nat m) l.
Proof.
  intros H. unfold Py.slice_from, lastn.
  replace (- m <? 0) with true by (symmetry; apply Z.ltb_lt; lia).
  f_equal. lia.
Qed.

Lemma extend_bounded_lastn (m : Z) (buf chunk : list Z) :
  1 <= m -> extend_bounded m buf chunk = lastn (Z.to_nat m) (buf ++ chunk).
Proof.
  intros H. unfold extend_bounded.
  destruct (Z.of_nat (length (buf ++ chunk)) >? m) eqn:E.
  - now apply slice_from_neg.
  - symmetry. apply lastn_all.
    rewrite Z.gtb_ltb in E. apply Z.ltb_ge in E. lia.
Qed.

Lemma monotonic_rx (w w' : World) (t : Q) : monotonic w = (t, w') -> rx w' = rx w.
Proof. unfold monotonic. intros H. now injection H as _ <-. Qed.

Lemma wait_for_read_rx (timeout : Q) (w w' : World) (r : read_outcome) :
  wait_for_read timeout w = (r, w') ->
  r = hd ReadTimeout (rx w) /\ rx w' = tl (rx w).
Proof. unfold wait_for_read. intros H. now injection H as <- <-. Qed.

(** One more read outcome consumed from the script. *)
Lemma consume_one (script rest : list read_outcome) (r : read_outcome) (k : nat)
  (s : list Z) :
  r = hd ReadTimeout script ->
  rest = skipn k (tl script) ->
  rest = skipn (S k) script
  /\ s ++ data_of (firstn (S k) script)
     = (s ++ data_of [r]) ++ data_of (firstn k (tl script)).
Proof.
  intros -> ->. destruct script as [|o script]; cbn [hd tl].
  - rewrite !skipn_nil, !firstn_nil. cbn. now rewrite !app_nil_r.
  - split; [reflexivity|]. cbn [firstn data_of flat_map].
    now rewrite app_nil_r, app_assoc.
Qed.

Lemma read_loop_buffer (fuel : nat) :
  forall patterns deadline rct m stream buf w buf' found w',
    1 <= m ->
    buf = lastn (Z.to_nat m) stream ->
    read_loop fuel patterns deadline rct m buf w = Some ((buf', found), w') ->
    exists k,
      rx w' = skipn k (rx w)
      /\ buf' = lastn (Z.to_nat m) (stream ++ data_of (firstn k (rx w))).
Proof.
  induction fuel as [|fuel IH];
    intros patterns deadline rct m stream buf w buf' found w' Hm Hb H;
    cbn [read_loop] in H; [discriminate|].
  destruct (monotonic w) as [now w1] eqn:E1. apply monotonic_rx in E1.
  destruct (Qltb now deadline).
  - destruct (monotonic w1) as [now' w2] eqn:E2. apply monotonic_rx in E2.
    destruct (wait_for_read _ w2) as [o w3] eqn:E3.
    apply wait_for_read_rx in E3. destruct E3 as [Eo E3].
    rewrite E2, E1 in Eo, E3.
    assert (step : forall k s,
               rx w' = skipn k (rx w3) ->
               buf' = lastn (Z.to_nat m) (s ++ data_of (firstn k (rx w3))) ->
               s = stream ++ data_of [o] ->
               exists k0,
                 rx w' = skipn k0 (rx w)
                 /\ buf' = lastn (Z.to_nat m) (stream ++ data_of (firstn k0 (rx w)))).
    { intros k s Hk Hs ->. exists (S k). rewrite E3 in Hk, Hs.
      destruct (consume_one (rx w) (rx w') o k stream Eo Hk) as [K1 K2].
      split; [exact K1 | now rewrite K2]. }
    destruct o as [[|b chunk] | |].
    + destruct (IH _ _ _ _ stream _ _ _ _ _ Hm Hb H) as (k & Hk & Hs).
      apply (step k stream Hk Hs). cbn. now rewrite app_nil_r.
    + assert (Hb' : extend_bounded m buf (b :: chunk)
                    = lastn (Z.to_nat m) (stream ++ (b :: chunk))).
      { rewrite extend_bounded_lastn by exact Hm. rewrite Hb.
        apply lastn_lastn_app. }
      destruct (first_match patterns _).
      * injection H as <- _ <-. apply (step 0%nat (stream ++ (b :: chunk))).
        -- reflexivity.
        -- cbn [firstn data_of flat_map]. now rewrite app_nil_r.
        -- cbn. now rewrite app_nil_r.
      * destruct (IH _ _ _ _ (stream ++ (b :: chunk)) _ _ _ _ _ Hm Hb' H)
          as (k & Hk & Hs).
        apply (step k _ Hk Hs). cbn. now rewrite app_nil_r.
    + destruct (IH _ _ _ _ stream _ _ _ _ _ Hm Hb H) as (k & Hk & Hs).
      apply (step k stream Hk Hs). cbn. now rewrite app_nil_r.
    + injection H as <- _ <-. apply (step 0%nat stream).
      * reflexivity.
      * cbn [firstn data_of flat_map]. now rewrite app_nil_r.
      * cbn. now rewrite app_nil_r.
  - injection H as <- _ <-. exists 0%nat. split; [now rewrite E1|].
    cbn [firstn data_of flat_map]. now rewrite app_nil_r.
Qed.

Lemma send_and_wait_for_buffer (fuel : nat) (message : list Z)
  (patterns : list (list Z)) (tt rct : Q) (m : Z) (flush : bool)
  (w w' : World) (buf : list Z) (found : option (list Z)) :
  1 <= m ->
  send_and_wait_for fuel message patterns tt rct m flush w
  = Some (Ok (buf, found), w') ->
  Z.of_nat (length buf) <= m.
Proof.
  intros Hm. unfold send_and_wait_for.
  destruct (negb (writer_open w) || negb (reader_open w)).
  { intros H. injection H as <- _ _. cbn. lia. }
  unfold async_with_lock. destruct (locked w); [discriminate|].
  destruct (locked_body _ _ _ _ _ _ _ _) as [[r1 w1] |] eqn:B; [|discriminate].
  intros H. injection H as -> _. revert B. unfold locked_body.
  destruct (if flush then _ else _) as [[[flushed | e] w2] |]; try discriminate.
  destruct (write_drain message w2) as [ok w3]. destruct ok.
  - destruct (monotonic w3) as [t0 w4].
    destruct (read_loop _ _ _ _ _ _ w4) as [[[buf1 found1] w5] |] eqn:E;
      [|discriminate].
    intros H. injection H as -> _ _.
    destruct (read_loop_buffer fuel patterns _ rct m [] [] w4 buf found1 w5 Hm
                eq_refl E) as (k & _ & ->).
    pose proof (lastn_length (Z.to_nat m) ([] ++ data_of (firstn k (rx w4)))). lia.
  - intros H. injection H as <- _ _. cbn. lia.
Qed.

(** C5 (as amended): with [max_buffer] at least 1, appending a chunk to a
    buffer that holds the last [max_buffer] bytes of the stream leaves it
    holding the last [max_buffer] bytes of the longer stream, so at most
    [max_buffer] bytes; the read loop ends with the last [max_buffer] bytes of
    everything its reads delivered; the buffer [send_and_wait_for] returns is
    no longer than [max_buffer]. *)
Theorem receive_buffer_bounded (max_buffer : Z) :
  1 <= max_buffer ->
  (forall stream chunk,
      extend_bounded max_buffer (lastn (Z.to_nat max_buffer) stream) chunk
      = lastn (Z.to_nat max_buffer) (stream ++ chunk)
      /\ Z.of_nat (length (extend_bounded max_buffer
                             (lastn (Z.to_nat max_buffer) stream) chunk))
         <= max_buffer)
  /\ (forall fuel patterns deadline rct w buf found w',
        read_loop fuel patterns deadline rct max_buffer [] w
        = Some ((buf, found), w') ->
        exists k,
          rx w' = skipn k (rx w)
          /\ buf = lastn (Z.to_nat max_buffer) (data_of (firstn k (rx w)))
          /\ Z.of_nat (length buf) <= max_buffer)
  /\ (forall fuel message patterns tt rct flush w buf found w',
        send_and_wait_for fuel message patterns tt rct max_buffer flush w
        = Some (Ok (buf, found), w') ->
        Z.of_nat (length buf) <= max_buffer).
Proof.
  intros Hm. split; [|split].
  - intros stream chunk.
    assert (E : extend_bounded max_buffer (lastn (Z.to_nat max_buffer) stream) chunk
                = lastn (Z.to_nat max_buffer) (stream ++ chunk)).
    { rewrite extend_bounded_lastn by exact Hm. apply lastn_lastn_app. }
    split; [exact E|]. rewrite E.
    pose proof (lastn_length (Z.to_nat max_buffer) (stream ++ chunk)). lia.
  - intros fuel patterns deadline rct w buf found w' H.
    destruct (read_loop_buffer fuel patterns deadline rct max_buffer [] [] w buf
                found w' Hm eq_refl H) as (k & Hk & Hb).
    exists k. split; [exact Hk|]. cbn [app] in Hb. split; [exact Hb|].
    rewrite Hb.
    pose proof (lastn_length (Z.to_nat max_buffer) (data_of (firstn k (rx w)))).
    lia.
  - intros fuel message patterns tt rct flush w buf found w' H.
    exact (send_and_wait_for_buffer _ _ _ _ _ _ _ _ _ _ _ Hm H).
Qed.

Lemma receive_buffer_bounded_witness :
  exists w',
    send_and_wait_for 100 sample_message [sample_ack] (8 # 10) (12 # 100) 3 true
      (open_link [ReadTimeout; Chunk [1; 2]; Chunk [3; 4; 5]; Chunk [6]])
    = Some (Ok ([4; 5; 6], None), w')
    /\ Z.of_nat (length [4; 5; 6]) <= 3.
Proof.
  destruct (send_and_wait_for 100 sample_message [sample_ack] (8 # 10) (12 # 100)
              3 true
              (open_link [ReadTimeout; Chunk [1; 2]; Chunk [3; 4; 5]; Chunk [6]]))
    as [[r w'] |] eqn:E.
  - exists w'. pose proof E as E'. vm_compute in E'. injection E' as E' _.
    subst r. split; [reflexivity|].
    exact (proj2 (proj2 (receive_buffer_bounded 3 ltac:(lia))) _ _ _ _ _ _ _ _ _ _ E).
  - vm_compute in E. discriminate E.
Defined.

(** C5, counterexample: with [max_buffer = 0] the slice [buf[-0:]] is the whole
    buffer, so nothing is discarded and three bytes are returned. *)
Lemma buffer_not_bounded_by_zero :
  extend_bounded 0 [] [1; 2; 3] = [1; 2; 3]
  /\ exists w',
       send_and_wait_for 100 sample_message [sample_ack] (8 # 10) (12 # 100) 0
         true (open_link [ReadTimeout; Chunk [1; 2; 3]])
       = Some (Ok ([1; 2; 3], None), w')
       /\ ~ Z.of_nat (length [1; 2; 3]) <= 0.
Proof.
  split; [reflexivity|]. eexists. split; [lazy; reflexivity|]. cbn. lia.
Qed.

(** ** Read timeouts *)

Lemma monotonic_trace (w w' : World) (t : Q) :
  monotonic w = (t, w') -> trace w' = trace w ++ [EvClock t].
Proof. unfold monotonic. intros H. now injection H as <- <-. Qed.

Lemma wait_for_read_trace (timeout : Q) (w w' : World) (r : read_outcome) :
  wait_for_read timeout w = (r, w') -> trace w' = trace w ++ [EvRead timeout r].
Proof. unfold wait_for_read. intros H. now injection H as <- <-. Qed.

Lemma reads_follow_clock_exit (deadline rct t : Q) :
  reads_follow_clock deadline rct [EvClock t].
Proof.
  intros pre timeout o post H.
  destruct pre as [|e [|e' pre]]; discriminate H.
Qed.

Lemma reads_follow_clock_iteration (deadline rct t1 t2 : Q) (o : read_outcome)
  (rest : list event) :
  reads_follow_clock deadline rct rest ->
  reads_follow_clock deadline rct
    (EvClock t1 :: EvClock t2
       :: EvRead (chunk_timeout_of rct (deadline - t2)) o :: rest).
Proof.
  intros IH pre timeout o' post H.
  destruct pre as [|e0 [|e1 [|e2 pre]]]; cbn [app] in H.
  - discriminate H.
  - discriminate H.
  - injection H as <- <- <- _ _. exists [EvClock t1], t2. split; reflexivity.
  - injection H as <- <- <- H. destruct (IH _ _ _ _ H) as (pre' & now & -> & E).
    exists (EvClock t1 :: EvClock t2
              :: EvRead (chunk_timeout_of rct (deadline - t2)) o :: pre'), now.
    split; [reflexivity | exact E].
Qed.

Lemma read_loop_trace (fuel : nat) :
  forall patterns deadline rct max_buffer buf w r w',
    read_loop fuel patterns deadline rct max_buffer buf w = Some (r, w') ->
    exists evs, trace w' = trace w ++ evs /\ reads_follow_clock deadline rct evs.
Proof.
  induction fuel as [|fuel IH]; intros patterns deadline rct max_buffer buf w r w' H;
    cbn [read_loop] in H; [discriminate|].
  destruct (monotonic w) as [now w1] eqn:E1. apply monotonic_trace in E1.
  destruct (Qltb now deadline).
  - destruct (monotonic w1) as [now' w2] eqn:E2. apply monotonic_trace in E2.
    destruct (wait_for_read _ w2) as [o w3] eqn:E3.
    apply wait_for_read_trace in E3.
    assert (T3 : trace w3
                 = trace w ++ [EvClock now; EvClock now';
                               EvRead (chunk_timeout_of rct (deadline - now')) o]).
    { rewrite E3, E2, E1, <- !app_assoc. reflexivity. }
    assert (stop : exists evs,
               trace w3 = trace w ++ evs /\ reads_follow_clock deadline rct evs).
    { eexists. split; [exact T3|].
      apply reads_follow_clock_iteration. intros [|e pre] ? ? ? D; discriminate D. }
    assert (continue : forall x,
               read_loop fuel patterns deadline rct max_buffer x w3 = Some (r, w') ->
               exists evs,
                 trace w' = trace w ++ evs /\ reads_follow_clock deadline rct evs).
    { intros x Hx. destruct (IH _ _ _ _ _ _ _ _ Hx) as (evs & T & R).
      eexists. split.
      - rewrite T, T3, <- app_assoc. reflexivity.
      - cbn [app]. now apply reads_follow_clock_iteration. }
    destruct o as [[|b chunk] | |].
    + exact (continue _ H).
    + destruct (first_match patterns _).
      * injection H as _ <-. exact stop.
      * exact (continue _ H).
    + exact (continue _ H).
    + injection H as _ <-. exact stop.
  - injection H as _ <-. exists [EvClock now]. split; [exact E1|].
    apply reads_follow_clock_exit.
Qed.

Lemma floored_minimum (rct remaining : Q) :
  ((1 # 100 <= remaining ->
    Qmin rct (Qmax (1 # 100) remaining) == Qmin rct remaining)
   /\ (remaining < 1 # 100 ->
       Qmin rct (Qmax (1 # 100) remaining) == Qmin rct (1 # 100)))%Q.
Proof.
  split; intros H.
  - apply Q.min_compat; [reflexivity | now apply Q.max_r].
  - apply Q.min_compat; [reflexivity | apply Q.max_l; now apply Qlt_le_weak].
Qed.

(** C7 (as amended): every read of the read loop directly follows the clock
    reading that gives the time remaining, and its timeout is
    [min(read_chunk_timeout, max(0.01, remaining))]: the minimum of the chunk
    timeout and the remaining time when at least 10 ms remain, the minimum of
    the chunk timeout and 10 ms otherwise. *)
Theorem read_timeout_is_floored_minimum (fuel : nat) (patterns : list (list Z))
  (deadline rct : Q) (max_buffer : Z) (buf : list Z) (w w' : World)
  (r : list Z * option (list Z)) :
  read_loop fuel patterns deadline rct max_buffer buf w = Some (r, w') ->
  exists evs,
    trace w' = trace w ++ evs
    /\ forall pre timeout o post,
         evs = pre ++ EvRead timeout o :: post ->
         exists pre' now,
           pre = pre' ++ [EvClock now]
           /\ timeout = Qmin rct (Qmax (1 # 100) (deadline - now))
           /\ (1 # 100 <= deadline - now -> timeout == Qmin rct (deadline - now))%Q
           /\ (deadline - now < 1 # 100 -> timeout == Qmin rct (1 # 100))%Q.
Proof.
  intros H. destruct (read_loop_trace _ _ _ _ _ _ _ _ _ H) as (evs & T & R).
  exists evs. split; [exact T|].
  intros pre timeout o post E.
  destruct (R _ _ _ _ E) as (pre' & now & -> & ->).
  exists pre', now. split; [reflexivity|]. split; [reflexivity|].
  apply floored_minimum.
Qed.

Lemma read_timeout_witness :
  exists r w' evs,
    read_loop 5 [sample_ack] (8 # 10) (12 # 100) 4096 []
      (mkWorld true true true late_clock 3 [] [] [])
    = Some (r, w')
    /\ trace w' = [] ++ evs
    /\ forall pre timeout o post,
         evs = pre ++ EvRead timeout o :: post ->
         exists pre' now,
           pre = pre' ++ [EvClock now]
           /\ timeout = Qmin (12 # 100) (Qmax (1 # 100) ((8 # 10) - now)).
Proof.
  destruct (read_loop 5 [sample_ack] (8 # 10) (12 # 100) 4096 []
              (mkWorld true true true late_clock 3 [] [] []))
    as [[r w'] |] eqn:E.
  - destruct (read_timeout_is_floored_minimum _ _ _ _ _ _ _ _ _ E)
      as (evs & T & R).
    exists r, w', evs. split; [reflexivity|]. split; [exact T|].
    intros pre timeout o post H.
    destruct (R pre timeout o post H) as (pre' & now & Hp & Ht & _).
    exists pre', now. split; [exact Hp | exact Ht].
  - vm_compute in E. discriminate E.
Defined.

(** C7, counterexample: with the controller's timeouts (0.8 s in all, 0.12 s
    per chunk) and 5 ms left at the second clock reading of an iteration, the
    read is given 10 ms: neither the remaining time nor its minimum with the
    chunk timeout. *)
Lemma read_timeout_can_exceed_remaining :
  exists w',
    send_and_wait_for 10 sample_message [sample_ack] (8 # 10) (12 # 100) 4096
      true (mkWorld true true false late_clock 0 [] [] [])
    = Some (Ok ([], None), w')
    /\ trace w'
       = [EvAcquire; EvClock 0; EvClock 0; EvRead (1 # 100) ReadTimeout;
          EvWrite sample_message true; EvClock 0;
          EvClock (790 # 1000); EvClock (795 # 1000);
          EvRead (1 # 100) ReadTimeout; EvClock 1; EvRelease]
    /\ ((0 + (8 # 10)) - (795 # 1000) < 12 # 100)%Q
    /\ ~ (1 # 100 == (0 + (8 # 10)) - (795 # 1000))%Q
    /\ ~ (1 # 100 == Qmin (12 # 100) ((0 + (8 # 10)) - (795 # 1000)))%Q.
Proof.
  eexists. split; [lazy; reflexivity|]. split; [reflexivity|].
  split; [reflexivity|]. split; intros H; vm_compute in H; discriminate H.
Qed.

(** ** The channel controller *)

Lemma build_set_message_ok (address channel level fade : Z) :
  0 <= address <= 255 ->
  exists message, _build_set_message address channel level fade = Ok message.
Proof.
  intros Ha. unfold _build_set_message. rewrite build_data_array_payload.
  cbn [res_bind]. eexists. apply bytes_ok.
  unfold SYNC_BYTE, START_BYTE, STOP_BYTE, CMD_SET.
  apply Forall_app; split; [repeat constructor; lia|].
  apply Forall_app; split; [apply payload_for_bytes|].
  match goal with |- context [_checksum_7bit ?p] =>
    pose proof (checksum_range p) end.
  repeat constructor; lia.
Qed.

Lemma dimm_time_total (transition : pyval) :
  exists n, dimm_time_of_transition transition = Ok n.
Proof.
  destruct transition as [| [q | neg |] |]; eexists; reflexivity.
Qed.

Lemma matched_is_true (found : option (list Z)) (ack : list Z) :
  matched_is found ack = true <-> found = Some ack.
Proof.
  unfold matched_is. destruct found as [m|]; [|split; discriminate].
  destruct (list_eq_dec Z.eq_dec m ack) as [-> | N]; split; try reflexivity.
  - discriminate.
  - intros H. injection H as ->. now destruct N.
Qed.

Lemma matched_is_false (found : option (list Z)) (ack : list Z) :
  found <> Some ack -> matched_is found ack = false.
Proof.
  intros N. destruct (matched_is found ack) eqn:E; [|reflexivity].
  apply matched_is_true in E. now destruct N.
Qed.

Section Retry.

Context {Link : Type}.
Variable transact :
  list Z -> list (list Z) -> Q -> Q -> Link ->
  option (res (list Z * option (list Z)) * Link).
Variable ok : Link -> Prop.
Variable ack : list Z.
Hypothesis silent : never_acks transact ok ack.

Lemma retry_never_acks (message : list Z) (tt rct : Q) (n : nat) :
  forall l calls,
    ok l ->
    exists l',
      retry (counted transact) n message ack tt rct (l, calls)
      = Some (Ok false, (l', (calls + n)%nat))
      /\ ok l'.
Proof.
  induction n as [|n IH]; intros l calls Hl; cbn [retry].
  - exists l. now rewrite Nat.add_0_r.
  - unfold counted at 1. cbn [fst snd].
    destruct (silent message tt rct l Hl) as (buf & found & l1 & E & Hf & Hl1).
    rewrite E, (matched_is_false _ _ Hf).
    destruct (IH l1 (S calls) Hl1) as (l' & E' & Hl').
    exists l'. rewrite E'. split; [|exact Hl'].
    now replace (calls + S n)%nat with (S calls + n)%nat by lia.
Qed.

End Retry.

(** C3: on a bus that never acknowledges, [sende_befehl_mit_ack] calls
    [send_and_wait_for] exactly [max_wiederholungen] times and returns
    [False]; [async_turn_on] and [async_turn_off], which ask for three
    attempts, make exactly three calls and leave the controller, cached on/off
    flag and cached brightness included, exactly as it was. *)
Theorem silent_bus_exhausts_retries {Link : Type}
  (transact : list Z -> list (list Z) -> Q -> Q -> Link ->
              option (res (list Z * option (list Z)) * Link))
  (ok : Link -> Prop) (self : Rs485Dimmer) (l : Link) (calls : nat) :
  0 <= module_address self <= 255 ->
  never_acks transact ok [0xFE; module_address self; 0x06; 0xFF] ->
  ok l ->
  (forall message max_wiederholungen tt rct,
      exists l',
        sende_befehl_mit_ack (counted transact) self message max_wiederholungen
          tt rct (l, calls)
        = Some (Ok false, (l', (calls + Z.to_nat max_wiederholungen)%nat)))
  /\ (forall brightness transition,
        exists l',
          async_turn_on (counted transact) self brightness transition (l, calls)
          = Some (Ok tt, (self, (l', (calls + 3)%nat))))
  /\ (forall transition,
        exists l',
          async_turn_off (counted transact) self transition (l, calls)
          = Some (Ok tt, (self, (l', (calls + 3)%nat)))).
Proof.
  intros Ha Hs Hl.
  assert (R : forall message n tt rct,
             exists l',
               sende_befehl_mit_ack (counted transact) self message n tt rct
                 (l, calls)
               = Some (Ok false, (l', (calls + Z.to_nat n)%nat))).
  { intros message n tt rct. unfold sende_befehl_mit_ack.
    rewrite (ack_pattern_ok _ Ha).
    destruct (retry_never_acks transact ok _ Hs message tt rct (Z.to_nat n)
                l calls Hl) as (l' & E & _).
    now exists l'. }
  assert (S : forall level transition,
             exists l',
               send_set (counted transact) self level transition (l, calls)
               = Some (Ok false, (l', (calls + 3)%nat))).
  { intros level transition. unfold send_set.
    destruct (dimm_time_total transition) as (n & ->). cbn [res_bind].
    destruct (build_set_message_ok (module_address self) (dimmer_index self)
                level n Ha) as (message & ->).
    exact (R message 3 _ _). }
  split; [exact R|]. split.
  - intros brightness transition. unfold async_turn_on.
    destruct (S (match brightness with Some b => b | None => 255 end) transition)
      as (l' & ->).
    now exists l'.
  - intros transition. unfold async_turn_off.
    destruct (S 0 transition) as (l' & ->). now exists l'.
Qed.

(** The real module on a link that was never opened is such a bus. *)
Lemma unconnected_never_acks (fuel : nat) (ack : list Z) :
  never_acks (module_transact fuel) (fun w => reader_open w = false) ack.
Proof.
  intros message tt rct w Hw. exists [], None, w.
  unfold module_transact. rewrite unconnected_returns by now left.
  repeat split; [discriminate | exact Hw].
Qed.

Lemma silent_bus_exhausts_retries_witness :
  exists w',
    async_turn_on (counted (module_transact 0)) (mkDimmer 5 2 true 128) (Some 200)
      (VFloat (Finite (3 # 1))) (closed_link, 0%nat)
    = Some (Ok tt, (mkDimmer 5 2 true 128, (w', 3%nat))).
Proof.
  exact (proj1 (proj2 (silent_bus_exhausts_retries (module_transact 0)
                         (fun w => reader_open w = false) (mkDimmer 5 2 true 128)
                         closed_link 0%nat ltac:(cbn; lia)
                         (unconnected_never_acks 0 _) eq_refl))
           (Some 200) (VFloat (Finite (3 # 1)))).
Defined.

(** The same on an open link on which nothing ever arrives: three full
    transactions (three frames written), no change of the cached state. *)
Lemma silent_open_link_three_attempts :
  exists w',
    async_turn_on (counted (module_transact 100)) (mkDimmer 5 2 true 128)
      (Some 200) (VFloat (Finite (3 # 1))) (open_link [], 0%nat)
    = Some (Ok tt, (mkDimmer 5 2 true 128, (w', 3%nat)))
    /\ filter (fun e => match e with EvWrite _ _ => true | _ => false end)
         (trace w')
       = [EvWrite sample_message true; EvWrite sample_message true;
          EvWrite sample_message true]
    /\ locked w' = false.
Proof.
  eexists. split; [lazy; reflexivity|]. split; reflexivity.
Qed.

(** The first attempt that reports the acknowledgement ends the retry loop
    with [True], after that one call. *)
Lemma first_ack_succeeds {Link : Type}
  (transact : list Z -> list (list Z) -> Q -> Q -> Link ->
              option (res (list Z * option (list Z)) * Link))
  (message ack buf : list Z) (tt rct : Q) (l l' : Link) (n : nat) :
  transact message [ack] tt rct l = Some (Ok (buf, Some ack), l') ->
  retry transact (S n) message ack tt rct l = Some (Ok true, l').
Proof.
  intros E. cbn [retry]. rewrite E.
  now rewrite (proj2 (matched_is_true (Some ack) ack) eq_refl).
Qed.

Lemma acknowledged_send_set {Link : Type}
  (transact : list Z -> list (list Z) -> Q -> Q -> Link ->
              option (res (list Z * option (list Z)) * Link))
  (self : Rs485Dimmer) (level : Z) (transition : pyval) (l l' : Link) :
  0 <= module_address self <= 255 ->
  (forall message tt rct,
      exists buf,
        transact message [[0xFE; module_address self; 0x06; 0xFF]] tt rct l
        = Some (Ok (buf, Some [0xFE; module_address self; 0x06; 0xFF]), l')) ->
  send_set transact self level transition l = Some (Ok true, l').
Proof.
  intros Ha Hack. unfold send_set.
  destruct (dimm_time_total transition) as (n & ->). cbn [res_bind].
  destruct (build_set_message_ok (module_address self) (dimmer_index self)
              level n Ha) as (message & ->).
  unfold sende_befehl_mit_ack. rewrite (ack_pattern_ok _ Ha).
  destruct (Hack message (8 # 10) (12 # 100)) as (buf & E).
  change (Z.to_nat 3) with 3%nat.
  exact (first_ack_succeeds transact _ _ buf _ _ _ _ 2 E).
Qed.

(** C6 (as amended): after a turn-on whose retry loop succeeded, the cached
    on/off flag is true, whatever the level (0 included), and the cached
    brightness is the level given; after a turn-off that succeeded (it sends
    level 0) the flag is false and the cached brightness 0.  Both integrations
    agree.  A first transaction that reports the acknowledgement is such a
    success. *)
Theorem successful_set_updates_cache {Link : Type}
  (transact : list Z -> list (list Z) -> Q -> Q -> Link ->
              option (res (list Z * option (list Z)) * Link))
  (self : Rs485Dimmer) (level : Z) (transition : pyval) (l l' : Link) :
  (send_set transact self level transition l = Some (Ok true, l') ->
   async_turn_on transact self (Some level) transition l
   = Some (Ok tt,
           (mkDimmer (module_address self) (dimmer_index self) true level, l')))
  /\ (send_set transact self 0 transition l = Some (Ok true, l') ->
      async_turn_off transact self transition l
      = Some (Ok tt,
              (mkDimmer (module_address self) (dimmer_index self) false 0, l')))
  /\ (forall channel w w',
        Legacy.send_set channel level transition w = Some (Ok true, w') ->
        Legacy.async_turn_on channel (Some level) transition w
        = Some (Ok tt,
                (Legacy.mkChannel (Legacy.address channel)
                   (Legacy._channel channel) true level, w')))
  /\ (forall channel w w',
        Legacy.send_set channel 0 transition w = Some (Ok true, w') ->
        Legacy.async_turn_off channel transition w
        = Some (Ok tt,
                (Legacy.mkChannel (Legacy.address channel)
                   (Legacy._channel channel) false 0, w')))
  /\ (0 <= module_address self <= 255 ->
      (forall message tt rct,
          exists buf,
            transact message [[0xFE; module_address self; 0x06; 0xFF]] tt rct l
            = Some (Ok (buf, Some [0xFE; module_address self; 0x06; 0xFF]), l')) ->
      async_turn_on transact self (Some level) transition l
      = Some (Ok tt,
              (mkDimmer (module_address self) (dimmer_index self) true level, l'))
      /\ async_turn_off transact self transition l
         = Some (Ok tt,
                 (mkDimmer (module_address self) (dimmer_index self) false 0, l'))).
Proof.
  split; [|split; [|split; [|split]]].
  - intros E. unfold async_turn_on. now rewrite E.
  - intros E. unfold async_turn_off. now rewrite E.
  - intros channel w w' E. unfold Legacy.async_turn_on. now rewrite E.
  - intros channel w w' E. unfold Legacy.async_turn_off. now rewrite E.
  - intros Ha Hack. unfold async_turn_on, async_turn_off.
    rewrite (acknowledged_send_set transact self level transition l l' Ha Hack).
    rewrite (acknowledged_send_set transact self 0 transition l l' Ha Hack).
    split; reflexivity.
Qed.

Lemma successful_set_updates_cache_witness :
  exists w',
    async_turn_on (module_transact 100) (mkDimmer 5 2 false 0) (Some 200)
      (VFloat (Finite (3 # 1)))
      (open_link [ReadTimeout; Chunk [0; 0; 0xFE; 5; 0x06; 0xFF; 0]])
    = Some (Ok tt, (mkDimmer 5 2 true 200, w')).
Proof.
  destruct (send_set (module_transact 100) (mkDimmer 5 2 false 0) 200
              (VFloat (Finite (3 # 1)))
              (open_link [ReadTimeout; Chunk [0; 0; 0xFE; 5; 0x06; 0xFF; 0]]))
    as [[r w'] |] eqn:E.
  - exists w'. pose proof E as E'. vm_compute in E'. injection E' as E' _.
    subst r.
    exact (proj1 (successful_set_updates_cache (module_transact 100)
                    (mkDimmer 5 2 false 0) 200 (VFloat (Finite (3 # 1)))
                    _ w') E).
  - vm_compute in E. discriminate E.
Defined.

(** C6, counterexample: a turn-on with level 0 that is acknowledged leaves the
    cached on/off flag true, not [level > 0]; the older integration does the
    same. *)
Lemma turn_on_with_level_zero_sets_flag :
  (exists w',
      async_turn_on (module_transact 100) (mkDimmer 5 2 false 128) (Some 0) VNone
        (open_link [ReadTimeout; Chunk [0xFE; 5; 0x06; 0xFF]])
      = Some (Ok tt, (mkDimmer 5 2 true 0, w')))
  /\ (exists w',
        Legacy.async_turn_on (Legacy.mkChannel 5 2 false 128) (Some 0) VNone
          (open_link [Chunk [0xFE; 5; 0x06; 0xFF]])
        = Some (Ok tt, (Legacy.mkChannel 5 2 true 0, w')))
  /\ _is_on (mkDimmer 5 2 true 0) <> (0 <? 0).
Proof.
  split; [|split].
  - eexists. lazy. reflexivity.
  - eexists. lazy. reflexivity.
  - discriminate.
Qed.

(** ** Termination of a transaction *)

Lemma Qltb_false (a b : Q) : (b <= a)%Q -> Qltb a b = false.
Proof.
  intros H. unfold Qltb. apply Qle_bool_iff in H. now rewrite H.
Qed.

Lemma monotonic_ticks (w w' : World) (t : Q) :
  monotonic w = (t, w') ->
  t = clock w (ticks w) /\ clock w' = clock w /\ ticks w' = S (ticks w).
Proof. unfold monotonic. intros H. now injection H as <- <-. Qed.

Lemma wait_for_read_ticks (timeout : Q) (w w' : World) (r : read_outcome) :
  wait_for_read timeout w = (r, w') -> clock w' = clock w /\ ticks w' = ticks w.
Proof. unfold wait_for_read. intros H. now injection H as _ <-. Qed.

Lemma write_drain_ticks (message : list Z) (w w' : World) (ok : bool) :
  write_drain message w = (ok, w') -> clock w' = clock w /\ ticks w' = ticks w.
Proof. unfold write_drain. intros H. now injection H as _ <-. Qed.

Lemma flush_loop_returns (fuel : nat) :
  forall deadline flushed w n,
    (forall i, (n <= i)%nat -> (deadline <= clock w i)%Q) ->
    (n <= ticks w + fuel)%nat ->
    exists r w', flush_loop (S fuel) deadline flushed w = Some (r, w').
Proof.
  induction fuel as [|fuel IH]; intros deadline flushed w n Hn Hf;
    cbn [flush_loop];
    destruct (monotonic w) as [now w1] eqn:E1;
    apply monotonic_ticks in E1; destruct E1 as (-> & C1 & T1);
    (destruct (Qltb (clock w (ticks w)) deadline) eqn:Q; [|now eauto]);
    (assert (ticks w < n)%nat as L
      by (destruct (Nat.lt_ge_cases (ticks w) n) as [L | G]; [exact L|];
          rewrite (Qltb_false _ _ (Hn _ G)) in Q; discriminate Q)).
  - exfalso. lia.
  - destruct (wait_for_read (1 # 100) w1) as [o w2] eqn:E2.
    apply wait_for_read_ticks in E2. destruct E2 as (C2 & T2).
    destruct o as [[|b chunk] | |]; try (now eauto).
    apply (IH _ _ _ n).
    + intros i Hi. rewrite C2, C1. now apply Hn.
    + lia.
Qed.

Lemma read_loop_returns (fuel : nat) :
  forall patterns deadline rct max_buffer buf w n,
    (forall i, (n <= i)%nat -> (deadline <= clock w i)%Q) ->
    (n <= ticks w + fuel)%nat ->
    exists r w',
      read_loop (S fuel) patterns deadline rct max_buffer buf w = Some (r, w').
Proof.
  induction fuel as [|fuel IH]; intros patterns deadline rct max_buffer buf w n Hn Hf;
    cbn [read_loop];
    destruct (monotonic w) as [now w1] eqn:E1;
    apply monotonic_ticks in E1; destruct E1 as (-> & C1 & T1);
    (destruct (Qltb (clock w (ticks w)) deadline) eqn:Q; [|now eauto]);
    (assert (ticks w < n)%nat as L
      by (destruct (Nat.lt_ge_cases (ticks w) n) as [L | G]; [exact L|];
          rewrite (Qltb_false _ _ (Hn _ G)) in Q; discriminate Q)).
  - exfalso. lia.
  - destruct (monotonic w1) as [now' w2] eqn:E2.
    apply monotonic_ticks in E2. destruct E2 as (_ & C2 & T2).
    destruct (wait_for_read _ w2) as [o w3] eqn:E3.
    apply wait_for_read_ticks in E3. destruct E3 as (C3 & T3).
    assert (next : forall b,
               exists r w',
                 read_loop (S fuel) patterns deadline rct max_buffer b w3
                 = Some (r, w')).
    { intros b. apply (IH _ _ _ _ _ _ n).
      - intros i Hi. rewrite C3, C2, C1. now apply Hn.
      - lia. }
    destruct o as [[|b chunk] | |]; try (now eauto).
    destruct (first_match patterns _); now eauto.
Qed.

Lemma flush_loop_mono (fuel : nat) :
  forall fuel' deadline flushed w x,
    (fuel <= fuel')%nat ->
    flush_loop fuel deadline flushed w = Some x ->
    flush_loop fuel' deadline flushed w = Some x.
Proof.
  induction fuel as [|fuel IH]; intros fuel' deadline flushed w x Hf H;
    [discriminate H|].
  destruct fuel' as [|fuel']; [lia|]. cbn [flush_loop] in *.
  destruct (monotonic w) as [now w1].
  destruct (Qltb now deadline); [|exact H].
  destruct (wait_for_read (1 # 100) w1) as [o w2].
  destruct o as [[|b chunk] | |]; try exact H.
  apply IH; [lia | exact H].
Qed.

Lemma read_loop_mono (fuel : nat) :
  forall fuel' patterns deadline rct max_buffer buf w x,
    (fuel <= fuel')%nat ->
    read_loop fuel patterns deadline rct max_buffer buf w = Some x ->
    read_loop fuel' patterns deadline rct max_buffer buf w = Some x.
Proof.
  induction fuel as [|fuel IH];
    intros fuel' patterns deadline rct max_buffer buf w x Hf H; [discriminate H|].
  destruct fuel' as [|fuel']; [lia|]. cbn [read_loop] in *.
  destruct (monotonic w) as [now w1].
  destruct (Qltb now deadline); [|exact H].
  destruct (monotonic w1) as [now' w2].
  destruct (wait_for_read _ w2) as [o w3].
  destruct o as [[|b chunk] | |]; try exact H; try (apply IH; [lia | exact H]).
  destruct (first_match patterns _); [exact H | apply IH; [lia | exact H]].
Qed.

Lemma flush_input_returns (window : Q) (w : World) :
  clock_unbounded w ->
  exists fuel r w',
    forall fuel', (fuel <= fuel')%nat -> _flush_input fuel' window w = Some (r, w').
Proof.
  intros U. unfold _flush_input. destruct (negb (reader_open w)).
  - exists 0%nat, (Ok []), w. reflexivity.
  - destruct (monotonic w) as [t0 w1] eqn:E. apply monotonic_ticks in E.
    destruct E as (_ & C & _).
    destruct (U (t0 + window)%Q) as (n & Hn).
    destruct (flush_loop_returns n (t0 + window)%Q [] w1 n) as (r & w' & H).
    + intros i Hi. rewrite C. now apply Hn.
    + lia.
    + exists (S n), r, w'. intros fuel' Hf. now apply (flush_loop_mono (S n)).
Qed.

Lemma read_loop_eventually_returns (patterns : list (list Z)) (deadline rct : Q)
  (max_buffer : Z) (buf : list Z) (w : World) :
  clock_unbounded w ->
  exists fuel r w',
    forall fuel',
      (fuel <= fuel')%nat ->
      read_loop fuel' patterns deadline rct max_buffer buf w = Some (r, w').
Proof.
  intros U. destruct (U deadline) as (n & Hn).
  destruct (read_loop_returns n patterns deadline rct max_buffer buf w n Hn)
    as (r & w' & H); [lia|].
  exists (S n), r, w'. intros fuel' Hf. now apply (read_loop_mono (S n)).
Qed.

Lemma clock_unbounded_advances (w w' : World) :
  advances w w' -> clock_unbounded w -> clock_unbounded w'.
Proof.
  intros (_ & _ & _ & C & _) U bound. rewrite C. apply U.
Qed.

Lemma locked_body_returns (message : list Z) (patterns : list (list Z))
  (tt rct : Q) (max_buffer : Z) (flush : bool) (w : World) :
  clock_unbounded w ->
  exists fuel r w',
    forall fuel',
      (fuel <= fuel')%nat ->
      locked_body fuel' message patterns tt rct max_buffer flush w = Some (r, w').
Proof.
  intros U. unfold locked_body.
  assert (F : exists fuel r w1,
             advances w w1
             /\ forall fuel',
                  (fuel <= fuel')%nat ->
                  (if flush then _flush_input fuel' (8 # 100) w
                   else Some (Ok [], w)) = Some (r, w1)).
  { destruct flush.
    - destruct (flush_input_returns (8 # 100) w U) as (f & r & w1 & H).
      exists f, r, w1. split; [|exact H].
      exact (flush_input_advances f _ _ _ _ (H f (Nat.le_refl f))).
    - exists 0%nat, (Ok []), w. split; [apply advances_refl | reflexivity]. }
  destruct F as (f1 & r1 & w1 & A1 & H1).
  destruct r1 as [flushed | e].
  - destruct (write_drain message w1) as [ok w2] eqn:E2.
    pose proof (write_drain_advances _ _ _ _ E2) as A2.
    destruct ok.
    + destruct (monotonic w2) as [t0 w3] eqn:E3.
      pose proof (monotonic_advances _ _ _ E3) as A3.
      pose proof (clock_unbounded_advances _ _
                    (advances_trans _ _ _ (advances_trans _ _ _ A1 A2) A3) U) as U3.
      destruct (read_loop_eventually_returns patterns (t0 + tt)%Q rct max_buffer
                  [] w3 U3) as (f2 & r & w4 & H2).
      exists (Nat.max f1 f2), (Ok r), w4. intros fuel' Hf.
      rewrite H1 by lia. rewrite E2, E3. now rewrite H2 by lia.
    + exists f1, (Ok ([], None)), w2. intros fuel' Hf.
      rewrite H1 by exact Hf. now rewrite E2.
  - exists f1, (Raise e), w1. intros fuel' Hf. now rewrite H1 by exact Hf.
Qed.

(** X1: given real time, a transaction on a free link ends: from some fuel on,
    [send_and_wait_for] returns or raises, always with the same outcome, and
    the link is free again. *)
Theorem transaction_returns (message : list Z) (patterns : list (list Z))
  (tt rct : Q) (max_buffer : Z) (flush : bool) (w : World) :
  clock_unbounded w ->
  locked w = false ->
  exists fuel r w',
    locked w' = false
    /\ forall fuel',
         (fuel <= fuel')%nat ->
         send_and_wait_for fuel' message patterns tt rct max_buffer flush w
         = Some (r, w').
Proof.
  intros U L. unfold send_and_wait_for.
  destruct (negb (writer_open w) || negb (reader_open w)).
  - exists 0%nat, (Ok ([], None)), w. split; [exact L | reflexivity].
  - unfold async_with_lock. rewrite L.
    destruct (locked_body_returns message patterns tt rct max_buffer flush
                (set_locked true (log EvAcquire w))) as (f & r & w1 & H).
    { intros bound. apply U. }
    exists f, r, (set_locked false (log EvRelease w1)).
    split; [reflexivity|]. intros fuel' Hf. now rewrite H by exact Hf.
Qed.

Lemma steady_clock_unbounded (chunks : list read_outcome) :
  clock_unbounded (open_link chunks).
Proof.
  intros [num den]. exists (Z.to_nat (100 * num)). intros i Hi.
  cbn [clock open_link]. unfold steady_clock, Qle. cbn.
  assert (100 * num <= Z.of_nat i) by lia.
  assert (1 <= Z.pos den) by lia. nia.
Qed.

Lemma transaction_returns_witness :
  exists fuel r w',
    locked w' = false
    /\ forall fuel',
         (fuel <= fuel')%nat ->
         send_and_wait_for fuel' sample_message [sample_ack] (8 # 10) (12 # 100)
           4096 true (open_link [])
         = Some (r, w').
Proof.
  exact (transaction_returns sample_message [sample_ack] (8 # 10) (12 # 100) 4096
           true (open_link []) (steady_clock_unbounded []) eq_refl).
Defined.

(** * Further properties of the bus link *)

(** The messages written in a run of events, each with the outcome of the
    write. *)
Definition writes_of (evs : list event) : list (list Z * bool) :=
  flat_map (fun e => match e with EvWrite m ok => [(m, ok)] | _ => [] end) evs.

(** Clock readings and reads: what a polling loop does. *)
Definition is_poll (e : event) : Prop :=
  match e with
  | EvClock _ | EvRead _ _ => True
  | _ => False
  end.

(** [w'] is [w] after polling: the trace grew by clock readings and reads
    only, and the reads took their outcomes off the front of the script. *)
Definition polled (w w' : World) : Prop :=
  wr w' = wr w
  /\ (exists evs, trace w' = trace w ++ evs /\ Forall is_poll evs)
  /\ exists k, rx w' = skipn k (rx w).

Lemma polled_refl (w : World) : polled w w.
Proof.
  split; [reflexivity|]. split.
  - exists []. now rewrite app_nil_r.
  - now exists 0%nat.
Qed.

Lemma polled_trans (w1 w2 w3 : World) : polled w1 w2 -> polled w2 w3 -> polled w1 w3.
Proof.
  intros (W1 & (e1 & T1 & F1) & k1 & R1) (W2 & (e2 & T2 & F2) & k2 & R2).
  split; [congruence|]. split.
  - exists (e1 ++ e2). split; [now rewrite T2, T1, app_assoc | now apply Forall_app].
  - exists (k2 + k1)%nat. now rewrite R2, R1, skipn_skipn.
Qed.

Lemma monotonic_polled (w w' : World) (t : Q) : monotonic w = (t, w') -> polled w w'.
Proof.
  unfold monotonic. intros H. injection H as _ <-. split; [reflexivity|]. split.
  - cbn. eexists. split; [reflexivity|]. repeat constructor.
  - now exists 0%nat.
Qed.

Lemma wait_for_read_polled (timeout : Q) (w w' : World) (r : read_outcome) :
  wait_for_read timeout w = (r, w') -> polled w w'.
Proof.
  unfold wait_for_read. intros H. injection H as _ <-. split; [reflexivity|]. split.
  - cbn. eexists. split; [reflexivity|]. repeat constructor.
  - exists 1%nat. cbn. now destruct (rx w).
Qed.

Lemma flush_loop_polled (fuel : nat) :
  forall deadline flushed w r w',
    flush_loop fuel deadline flushed w = Some (r, w') -> polled w w'.
Proof.
  induction fuel as [|fuel IH]; intros deadline flushed w r w' H;
    cbn [flush_loop] in H; [discriminate|].
  destruct (monotonic w) as [now w1] eqn:E1. apply monotonic_polled in E1.
  destruct (Qltb now deadline).
  - destruct (wait_for_read (1 # 100) w1) as [o w2] eqn:E2.
    apply wait_for_read_polled in E2.
    pose proof (polled_trans _ _ _ E1 E2) as A.
    destruct o as [[|b chunk] | |]; try (now injection H as _ <-).
    apply IH in H. now apply (polled_trans _ _ _ A).
  - now injection H as _ <-.
Qed.

Lemma flush_input_polled (fuel : nat) (window : Q) (w w' : World) (r : res (list Z)) :
  _flush_input fuel window w = Some (r, w') -> polled w w'.
Proof.
  unfold _flush_input. destruct (negb (reader_open w)).
  - intros H. injection H as _ <-. apply polled_refl.
  - destruct (monotonic w) as [t0 w1] eqn:E. apply monotonic_polled in E.
    intros H. apply flush_loop_polled in H. now apply (polled_trans _ _ _ E).
Qed.

Lemma read_loop_polled (fuel : nat) :
  forall patterns deadline rct max_buffer buf w r w',
    read_loop fuel patterns deadline rct max_buffer buf w = Some (r, w') ->
    polled w w'.
Proof.
  induction fuel as [|fuel IH]; intros patterns deadline rct max_buffer buf w r w' H;
    cbn [read_loop] in H; [discriminate|].
  destruct (monotonic w) as [now w1] eqn:E1. apply monotonic_polled in E1.
  destruct (Qltb now deadline).
  - destruct (monotonic w1) as [now' w2] eqn:E2. apply monotonic_polled in E2.
    destruct (wait_for_read _ w2) as [o w3] eqn:E3.
    apply wait_for_read_polled in E3.
    pose proof (polled_trans _ _ _ (polled_trans _ _ _ E1 E2) E3) as A.
    destruct o as [[|b chunk] | |].
    + apply IH in H. now apply (polled_trans _ _ _ A).
    + destruct (first_match patterns _).
      * now injection H as _ <-.
      * apply IH in H. now apply (polled_trans _ _ _ A).
    + apply IH in H. now apply (polled_trans _ _ _ A).
    + now injection H as _ <-.
  - now injection H as _ <-.
Qed.

Lemma writes_of_app (a b : list event) : writes_of (a ++ b) = writes_of a ++ writes_of b.
Proof. unfold writes_of. apply flat_map_app. Qed.

Lemma writes_of_poll (evs : list event) : Forall is_poll evs -> writes_of evs = [].
Proof.
  induction 1 as [|e evs He _ IH]; [reflexivity|].
  destruct e; cbn in *; try contradiction; exact IH.
Qed.

Lemma write_drain_events (message : list Z) (w w' : World) (ok : bool) :
  write_drain message w = (ok, w') ->
  trace w' = trace w ++ [EvWrite message ok] /\ rx w' = rx w.
Proof. unfold write_drain. intros H. now injection H as <- <-. Qed.

(** What the body of a transaction does to the link, by its outcome. *)
Lemma locked_body_writes (fuel : nat) (message : list Z)
  (patterns : list (list Z)) (tt rct : Q) (max_buffer : Z) (flush : bool)
  (w w' : World) (r : res (list Z * option (list Z))) :
  locked_body fuel message patterns tt rct max_buffer flush w = Some (r, w') ->
  exists evs,
    trace w' = trace w ++ evs
    /\ (exists k, rx w' = skipn k (rx w))
    /\ match r with
       | Raise _ => flush = true /\ writes_of evs = []
       | Ok res =>
           exists ok,
             writes_of evs = [(message, ok)]
             /\ (ok = false ->
                 res = ([], None)
                 /\ exists before, evs = before ++ [EvWrite message false])
       end.
Proof.
  unfold locked_body.
  assert (F : forall x,
             (if flush then _flush_input fuel (8 # 100) w else Some (Ok [], w))
             = Some x ->
             polled w (snd x)
             /\ (forall e, fst x = Raise e -> flush = true)).
  { intros [r0 w0]. destruct flush.
    - intros H. split; [exact (flush_input_polled _ _ _ _ _ H) | reflexivity].
    - intros H. injection H as <- <-. split; [apply polled_refl | discriminate]. }
  destruct (if flush then _ else _) as [[[flushed | e] w1] |]; [| |discriminate].
  - destruct (F _ eq_refl) as [(_ & (e1 & T1 & P1) & k1 & R1) _]. cbn [snd] in *.
    destruct (write_drain message w1) as [ok w2] eqn:E2.
    apply write_drain_events in E2. destruct E2 as [T2 R2].
    destruct ok.
    + destruct (monotonic w2) as [t0 w3] eqn:E3. apply monotonic_polled in E3.
      destruct (read_loop _ _ _ _ _ _ w3) as [[r4 w4] |] eqn:E4; [|discriminate].
      apply read_loop_polled in E4.
      destruct (polled_trans _ _ _ E3 E4) as (_ & (e3 & T3 & P3) & k3 & R3).
      intros H. injection H as <- <-.
      exists (e1 ++ [EvWrite message true] ++ e3). split; [|split].
      * rewrite T3, T2, T1, <- !app_assoc. reflexivity.
      * exists (k3 + k1)%nat. now rewrite R3, R2, R1, skipn_skipn.
      * exists true. split; [|discriminate].
        rewrite !writes_of_app, (writes_of_poll _ P1), (writes_of_poll _ P3).
        reflexivity.
    + intros H. injection H as <- <-.
      exists (e1 ++ [EvWrite message false]). split; [|split].
      * rewrite T2, T1, <- app_assoc. reflexivity.
      * exists k1. now rewrite R2.
      * exists false. split.
        -- rewrite writes_of_app, (writes_of_poll _ P1). reflexivity.
        -- intros _. split; [reflexivity | now exists e1].
  - destruct (F _ eq_refl) as [(_ & (e1 & T1 & P1) & k1 & R1) Fl]. cbn [snd fst] in *.
    intros H. injection H as <- <-.
    exists e1. split; [exact T1|]. split; [now exists k1|].
    split; [exact (Fl e eq_refl) | exact (writes_of_poll _ P1)].
Qed.

(** X2: a transaction on a connected link that returns has written the message
    exactly once, unchanged, between taking and releasing the lock; after a
    failed write it reads nothing more and returns the empty buffer and no
    match.  A transaction that raises has written nothing, and only a
    transaction that flushes can raise. *)
Theorem transaction_writes_once (fuel : nat) (message : list Z)
  (patterns : list (list Z)) (tt rct : Q) (max_buffer : Z) (flush : bool)
  (w w' : World) (r : res (list Z * option (list Z))) :
  reader_open w = true -> writer_open w = true ->
  send_and_wait_for fuel message patterns tt rct max_buffer flush w = Some (r, w') ->
  exists evs,
    trace w' = trace w ++ [EvAcquire] ++ evs ++ [EvRelease]
    /\ match r with
       | Raise _ => flush = true /\ writes_of evs = []
       | Ok res =>
           exists ok,
             writes_of evs = [(message, ok)]
             /\ (ok = false ->
                 res = ([], None)
                 /\ exists before, evs = before ++ [EvWrite message false])
       end.
Proof.
  intros Hr Hw. unfold send_and_wait_for. rewrite Hr, Hw. cbn [negb orb].
  unfold async_with_lock. destruct (locked w); [discriminate|].
  destruct (locked_body _ _ _ _ _ _ _ _) as [[r1 w1] |] eqn:B; [|discriminate].
  intros H. injection H as <- <-.
  destruct (locked_body_writes _ _ _ _ _ _ _ _ _ _ B) as (evs & T & _ & S).
  exists evs. split; [|exact S].
  cbn in *. rewrite T, <- !app_assoc. reflexivity.
Qed.

Lemma transaction_writes_once_witness :
  exists r w' evs,
    send_and_wait_for 100 sample_message [sample_ack] (8 # 10) (12 # 100) 4096
      true (mkWorld true true false steady_clock 0 [Chunk [7]] [false] [])
    = Some (r, w')
    /\ trace w' = [] ++ [EvAcquire] ++ evs ++ [EvRelease]
    /\ (forall res, r = Ok res -> exists ok, writes_of evs = [(sample_message, ok)]).
Proof.
  destruct (send_and_wait_for 100 sample_message [sample_ack] (8 # 10) (12 # 100)
              4096 true
              (mkWorld true true false steady_clock 0 [Chunk [7]] [false] []))
    as [[r w'] |] eqn:E.
  - destruct (transaction_writes_once 100 sample_message [sample_ack] (8 # 10)
                (12 # 100) 4096 true
                (mkWorld true true false steady_clock 0 [Chunk [7]] [false] [])
                w' r eq_refl eq_refl E) as (evs & T & S).
    exists r, w', evs. split; [reflexivity|]. split; [exact T|].
    intros res ->. destruct S as (ok & Wr & _). now exists ok.
  - vm_compute in E. discriminate E.
Defined.

(** ** What a reported match means *)

Lemma first_match_some (patterns : list (list Z)) (buf p : list Z) :
  first_match patterns buf = Some p ->
  exists before after,
    patterns = before ++ p :: after
    /\ Py.contains p buf = true
    /\ forall q, In q before -> Py.contains q buf = false.
Proof.
  unfold first_match. induction patterns as [|x patterns IH]; cbn [find];
    [discriminate|].
  destruct (Py.contains x buf) eqn:C.
  - intros H. injection H as ->. exists [], patterns.
    split; [reflexivity|]. split; [exact C | intros q []].
  - intros H. destruct (IH H) as (before & after & -> & Cp & Hb).
    exists (x :: before), after. split; [reflexivity|]. split; [exact Cp|].
    intros q [<- | Hq]; [exact C | now apply Hb].
Qed.

Lemma first_match_none (patterns : list (list Z)) (buf : list Z) :
  first_match patterns buf = None ->
  forall q, In q patterns -> Py.contains q buf = false.
Proof.
  unfold first_match. intros H q Hq. exact (find_none _ _ H q Hq).
Qed.

Lemma read_loop_found (fuel : nat) :
  forall patterns deadline rct max_buffer buf w buf' found w',
    buf = [] \/ first_match patterns buf = None ->
    read_loop fuel patterns deadline rct max_buffer buf w = Some ((buf', found), w') ->
    match found with
    | Some p => first_match patterns buf' = Some p
    | None => buf' = [] \/ first_match patterns buf' = None
    end.
Proof.
  induction fuel as [|fuel IH];
    intros patterns deadline rct max_buffer buf w buf' found w' I H;
    cbn [read_loop] in H; [discriminate|].
  destruct (monotonic w) as [now w1].
  destruct (Qltb now deadline).
  - destruct (monotonic w1) as [now' w2].
    destruct (wait_for_read _ w2) as [o w3].
    destruct o as [[|b chunk] | |].
    + exact (IH _ _ _ _ _ _ _ _ _ I H).
    + destruct (first_match patterns (extend_bounded max_buffer buf (b :: chunk)))
        as [p|] eqn:F.
      * injection H as <- <- _. exact F.
      * exact (IH _ _ _ _ _ _ _ _ _ (or_intror F) H).
    + exact (IH _ _ _ _ _ _ _ _ _ I H).
    + injection H as <- <- _. exact I.
  - injection H as <- <- _. exact I.
Qed.

Lemma send_and_wait_for_found (fuel : nat) (message : list Z)
  (patterns : list (list Z)) (tt rct : Q) (max_buffer : Z) (flush : bool)
  (w w' : World) (buf : list Z) (found : option (list Z)) :
  send_and_wait_for fuel message patterns tt rct max_buffer flush w
  = Some (Ok (buf, found), w') ->
  match found with
  | Some p => first_match patterns buf = Some p
  | None => buf = [] \/ first_match patterns buf = None
  end.
Proof.
  unfold send_and_wait_for.
  destruct (negb (writer_open w) || negb (reader_open w)).
  { intros H. injection H as <- <- _. now left. }
  unfold async_with_lock. destruct (locked w); [discriminate|].
  destruct (locked_body _ _ _ _ _ _ _ _) as [[r1 w1] |] eqn:B; [|discriminate].
  intros H. injection H as -> _. revert B. unfold locked_body.
  destruct (if flush then _ else _) as [[[flushed | e] w2] |]; try discriminate.
  destruct (write_drain message w2) as [ok w3]. destruct ok.
  - destruct (monotonic w3) as [t0 w4].
    destruct (read_loop _ _ _ _ _ _ w4) as [[[buf1 found1] w5] |] eqn:E;
      [|discriminate].
    intros H. injection H as -> -> _.
    exact (read_loop_found _ _ _ _ _ _ _ _ _ _ (or_introl eq_refl) E).
  - intros H. injection H as <- <- _. now left.
Qed.

(** X3: the pattern [send_and_wait_for] reports occurs in the buffer it returns
    and is the first of [patterns], in list order, that does; when it reports
    none and the buffer is not empty, no pattern occurs in the buffer. *)
Theorem reported_match_is_first_occurring (fuel : nat) (message : list Z)
  (patterns : list (list Z)) (tt rct : Q) (max_buffer : Z) (flush : bool)
  (w w' : World) (buf : list Z) (found : option (list Z)) :
  send_and_wait_for fuel message patterns tt rct max_buffer flush w
  = Some (Ok (buf, found), w') ->
  (forall p,
      found = Some p ->
      exists before after,
        patterns = before ++ p :: after
        /\ (exists pre post, buf = pre ++ p ++ post)
        /\ forall q,
             In q before -> ~ exists pre post, buf = pre ++ q ++ post)
  /\ (found = None ->
      buf <> [] ->
      forall q, In q patterns -> ~ exists pre post, buf = pre ++ q ++ post).
Proof.
  intros H. apply send_and_wait_for_found in H. split.
  - intros p ->. destruct (first_match_some _ _ _ H) as (before & after & E & C & B).
    exists before, after. split; [exact E|]. split; [now apply contains_spec|].
    intros q Hq Hc. apply contains_spec in Hc. rewrite (B q Hq) in Hc.
    discriminate Hc.
  - intros -> Hb q Hq Hc. destruct H as [-> | H]; [now destruct Hb|].
    apply contains_spec in Hc. rewrite (first_match_none _ _ H q Hq) in Hc.
    discriminate Hc.
Qed.

Lemma reported_match_witness :
  exists w' before after,
    send_and_wait_for 100 sample_message [[9; 9]; sample_ack; [0xFF]] (8 # 10)
      (12 # 100) 4096 true
      (open_link [ReadTimeout; Chunk [0; 0xFE; 5]; Chunk [0x06; 0xFF; 0]])
    = Some (Ok ([0; 0xFE; 5; 0x06; 0xFF; 0], Some sample_ack), w')
    /\ [[9; 9]; sample_ack; [0xFF]] = before ++ sample_ack :: after
    /\ forall q,
         In q before ->
         ~ exists pre post, [0; 0xFE; 5; 0x06; 0xFF; 0] = pre ++ q ++ post.
Proof.
  destruct (send_and_wait_for 100 sample_message [[9; 9]; sample_ack; [0xFF]]
              (8 # 10) (12 # 100) 4096 true
              (open_link [ReadTimeout; Chunk [0; 0xFE; 5]; Chunk [0x06; 0xFF; 0]]))
    as [[r w'] |] eqn:E.
  - pose proof E as E'. vm_compute in E'. injection E' as E' _. subst r.
    destruct (proj1 (reported_match_is_first_occurring _ _ _ _ _ _ _ _ _ _ _ E)
                sample_ack eq_refl) as (before & after & P & _ & B).
    exists w', before, after. split; [reflexivity|]. split; [exact P | exact B].
  - vm_compute in E. discriminate E.
Defined.

(** ** The retry budget, on any bus *)

Lemma retry_calls {Link : Type}
  (transact : list Z -> list (list Z) -> Q -> Q -> Link ->
              option (res (list Z * option (list Z)) * Link))
  (message ack : list Z) (tt rct : Q) (n : nat) :
  forall l c r l' c',
    retry (counted transact) n message ack tt rct (l, c) = Some (r, (l', c')) ->
    (c <= c' <= c + n)%nat
    /\ (r = Ok false -> c' = (c + n)%nat)
    /\ (r <> Ok false -> (c < c')%nat).
Proof.
  induction n as [|n IH]; intros l c r l' c' H; cbn [retry] in H.
  - injection H as <- <- <-. split; [lia|]. split; [intros _; lia|].
    intros N. now destruct N.
  - unfold counted at 1 in H. cbn [fst snd] in H.
    destruct (transact message [ack] tt rct l) as [[[[buf found] | e] l1] |];
      [| |discriminate].
    + destruct (matched_is found ack).
      * injection H as <- <- <-. split; [lia|]. split; [discriminate|].
        intros _. lia.
      * destruct (IH _ _ _ _ _ H) as (B & F & T).
        split; [lia|]. split.
        -- intros E. specialize (F E). lia.
        -- intros N. specialize (T N). lia.
    + injection H as <- <- <-. split; [lia|]. split; [discriminate|].
      intros _. lia.
Qed.

(** X4: whatever the bus does, [sende_befehl_mit_ack] makes at most
    [max_wiederholungen] transactions: all of them when it returns [False], at
    least one when it returns [True] or a transaction raises, none at all when
    [max_wiederholungen] is zero or negative (it then returns [False]).
    [async_turn_on] and [async_turn_off] make at most three, and leave the
    cached state as it was unless at least one transaction was made and the
    call returned normally. *)
Theorem commands_respect_retry_budget {Link : Type}
  (transact : list Z -> list (list Z) -> Q -> Q -> Link ->
              option (res (list Z * option (list Z)) * Link))
  (self : Rs485Dimmer) (l : Link) (c : nat) :
  (forall message n tt rct r l' c',
      sende_befehl_mit_ack (counted transact) self message n tt rct (l, c)
      = Some (r, (l', c')) ->
      (c <= c' <= c + Z.to_nat n)%nat
      /\ (r = Ok false -> c' = (c + Z.to_nat n)%nat)
      /\ (r = Ok true -> (c < c')%nat)
      /\ (n <= 0 -> 0 <= module_address self <= 255 -> r = Ok false /\ c' = c))
  /\ (forall brightness transition r self' l' c',
        async_turn_on (counted transact) self brightness transition (l, c)
        = Some (r, (self', (l', c'))) ->
        (c <= c' <= c + 3)%nat
        /\ (self' <> self -> r = Ok tt /\ (c < c')%nat))
  /\ (forall transition r self' l' c',
        async_turn_off (counted transact) self transition (l, c)
        = Some (r, (self', (l', c'))) ->
        (c <= c' <= c + 3)%nat
        /\ (self' <> self -> r = Ok tt /\ (c < c')%nat)).
Proof.
  assert (R : forall message n tt rct r l' c',
             sende_befehl_mit_ack (counted transact) self message n tt rct (l, c)
             = Some (r, (l', c')) ->
             (c <= c' <= c + Z.to_nat n)%nat
             /\ (r = Ok false -> c' = (c + Z.to_nat n)%nat)
             /\ (r = Ok true -> (c < c')%nat)
             /\ (n <= 0 -> 0 <= module_address self <= 255 ->
                 r = Ok false /\ c' = c)).
  { intros message n tt rct r l' c'. unfold sende_befehl_mit_ack.
    destruct (_ack_pattern (module_address self)) as [ack | e] eqn:A.
    - intros H. pose proof H as H0.
      apply retry_calls in H. destruct H as (B & F & T).
      split; [exact B|]. split; [exact F|]. split.
      + intros ->. apply T. discriminate.
      + intros Hn _. replace (Z.to_nat n) with 0%nat in H0 by lia.
        cbn [retry] in H0. injection H0 as <- _ <-. now split.
    - intros H. injection H as <- <- <-.
      split; [lia|]. split; [discriminate|]. split; [discriminate|].
      intros _ Ha. rewrite (ack_pattern_ok _ Ha) in A. discriminate A. }
  assert (S : forall level transition r l' c',
             send_set (counted transact) self level transition (l, c)
             = Some (r, (l', c')) ->
             (c <= c' <= c + 3)%nat /\ (r = Ok true -> (c < c')%nat)).
  { intros level transition r l' c'. unfold send_set.
    destruct (_ <- _ ;; _) as [message | e].
    - intros H. apply R in H. change (Z.to_nat 3) with 3%nat in H.
      destruct H as (B & _ & T & _). now split.
    - intros H. injection H as <- <- <-. split; [lia | discriminate]. }
  split; [exact R|]. split.
  - intros brightness transition r self' l' c'. unfold async_turn_on.
    destruct (send_set _ _ _ _ _) as [[[[|] | e] [l1 c1]] |] eqn:E;
      try discriminate; intros H; injection H as <- <- <- <-;
      destruct (S _ _ _ _ _ E) as (B & T); (split; [exact B|]).
    + intros _. split; [reflexivity | now apply T].
    + intros N. now destruct N.
    + intros N. now destruct N.
  - intros transition r self' l' c'. unfold async_turn_off.
    destruct (send_set _ _ _ _ _) as [[[[|] | e] [l1 c1]] |] eqn:E;
      try discriminate; intros H; injection H as <- <- <- <-;
      destruct (S _ _ _ _ _ E) as (B & T); (split; [exact B|]).
    + intros _. split; [reflexivity | now apply T].
    + intros N. now destruct N.
    + intros N. now destruct N.
Qed.

(** ** No change of the cached state without the acknowledgement on the wire *)

Lemma contains_app (p a b c : list Z) :
  Py.contains p b = true -> Py.contains p (a ++ b ++ c) = true.
Proof.
  rewrite !contains_spec. intros (pre & post & ->).
  exists (a ++ pre), (post ++ c). now rewrite <- !app_assoc.
Qed.

Lemma contains_lastn (p l : list Z) (n : nat) :
  Py.contains p (lastn n l) = true -> Py.contains p l = true.
Proof.
  intros H. rewrite <- (firstn_skipn (length l - n) l).
  rewrite <- (app_nil_r (skipn _ l)). now apply contains_app.
Qed.

Lemma data_of_app (a b : list read_outcome) : data_of (a ++ b) = data_of a ++ data_of b.
Proof. unfold data_of. apply flat_map_app. Qed.

(** Bytes found in a later stretch of the script are bytes of the script. *)
Lemma contains_stretch (p : list Z) (script : list read_outcome) (j k : nat) :
  Py.contains p (data_of (firstn k (skipn j script))) = true ->
  Py.contains p (data_of script) = true.
Proof.
  intros H.
  rewrite <- (firstn_skipn j script), data_of_app.
  rewrite <- (firstn_skipn k (skipn j script)), data_of_app.
  now apply contains_app.
Qed.

Lemma send_and_wait_for_consumes (fuel : nat) (message : list Z)
  (patterns : list (list Z)) (tt rct : Q) (max_buffer : Z) (flush : bool)
  (w w' : World) (r : res (list Z * option (list Z))) :
  send_and_wait_for fuel message patterns tt rct max_buffer flush w = Some (r, w') ->
  exists k, rx w' = skipn k (rx w).
Proof.
  unfold send_and_wait_for.
  destruct (negb (writer_open w) || negb (reader_open w)).
  { intros H. injection H as _ <-. now exists 0%nat. }
  unfold async_with_lock. destruct (locked w); [discriminate|].
  destruct (locked_body _ _ _ _ _ _ _ _) as [[r1 w1] |] eqn:B; [|discriminate].
  intros H. injection H as _ <-.
  destruct (locked_body_writes _ _ _ _ _ _ _ _ _ _ B) as (_ & _ & (k & K) & _).
  exists k. exact K.
Qed.

Lemma send_and_wait_for_stream (fuel : nat) (message : list Z)
  (patterns : list (list Z)) (tt rct : Q) (max_buffer : Z) (flush : bool)
  (w w' : World) (buf p : list Z) :
  1 <= max_buffer ->
  send_and_wait_for fuel message patterns tt rct max_buffer flush w
  = Some (Ok (buf, Some p), w') ->
  Py.contains p (data_of (rx w)) = true.
Proof.
  intros Hm H. pose proof (send_and_wait_for_found _ _ _ _ _ _ _ _ _ _ _ H) as F.
  cbn in F. apply first_match_some in F. destruct F as (_ & _ & _ & C & _).
  revert H. unfold send_and_wait_for.
  destruct (negb (writer_open w) || negb (reader_open w)); [discriminate|].
  unfold async_with_lock. destruct (locked w); [discriminate|].
  destruct (locked_body _ _ _ _ _ _ _ _) as [[r1 w1] |] eqn:B; [|discriminate].
  intros H. injection H as -> _. revert B. unfold locked_body.
  destruct (if flush then _ else _) as [[[flushed | e] w2] |] eqn:Fl;
    try discriminate.
  assert (P2 : exists j, rx w2 = skipn j (rx w)).
  { destruct flush.
    - destruct (flush_input_polled _ _ _ _ _ Fl) as (_ & _ & j & J).
      exists j. exact J.
    - injection Fl as _ <-. now exists 0%nat. }
  destruct P2 as (j & J).
  destruct (write_drain message w2) as [ok w3] eqn:E3.
  apply write_drain_events in E3. destruct E3 as [_ R3].
  destruct ok; [|discriminate].
  destruct (monotonic w3) as [t0 w4] eqn:E4. apply monotonic_rx in E4.
  destruct (read_loop _ _ _ _ _ _ w4) as [[[buf1 found1] w5] |] eqn:E;
    [|discriminate].
  intros H. injection H as -> -> _.
  destruct (read_loop_buffer _ _ _ _ _ [] [] _ _ _ _ Hm eq_refl E) as (k & _ & Hb).
  cbn [app] in Hb. rewrite Hb in C. apply contains_lastn in C.
  rewrite E4, R3, J in C. cbn in J. exact (contains_stretch _ _ _ _ C).
Qed.

Lemma contains_later (p : list Z) (script : list read_outcome) (k : nat) :
  Py.contains p (data_of (skipn k script)) = true ->
  Py.contains p (data_of script) = true.
Proof.
  intros H. rewrite <- (firstn_skipn k script), data_of_app.
  rewrite <- (app_nil_r (data_of (skipn k script))). now apply contains_app.
Qed.

Lemma retry_module_ack (fuel : nat) (message ack : list Z) (tt rct : Q) (n : nat) :
  forall w w',
    retry (module_transact fuel) n message ack tt rct w = Some (Ok true, w') ->
    Py.contains ack (data_of (rx w)) = true.
Proof.
  induction n as [|n IH]; intros w w' H; cbn [retry] in H; [discriminate|].
  destruct (module_transact fuel message [ack] tt rct w)
    as [[[[buf found] | e] w1] |] eqn:E; try discriminate.
  unfold module_transact in E.
  destruct (matched_is found ack) eqn:M.
  - apply matched_is_true in M. subst found.
    exact (send_and_wait_for_stream fuel message [ack] tt rct 4096 true w w1 buf
             ack ltac:(lia) E).
  - destruct (send_and_wait_for_consumes _ _ _ _ _ _ _ _ _ _ E) as (k & K).
    apply IH in H. rewrite K in H. exact (contains_later _ _ _ H).
Qed.

Lemma send_set_module_ack (fuel : nat) (self : Rs485Dimmer) (level : Z)
  (transition : pyval) (w w' : World) :
  send_set (module_transact fuel) self level transition w = Some (Ok true, w') ->
  exists pre post,
    data_of (rx w) = pre ++ [0xFE; module_address self; 0x06; 0xFF] ++ post.
Proof.
  unfold send_set. destruct (_ <- _ ;; _) as [message | e]; [|discriminate].
  unfold sende_befehl_mit_ack.
  destruct (_ack_pattern (module_address self)) as [ack | e] eqn:A;
    [|discriminate].
  apply bytes_inv in A. destruct A as [-> _].
  intros H. apply retry_module_ack in H. now apply contains_spec.
Qed.

(** X5: on the real module, [async_turn_on] and [async_turn_off] change the cached
    state only if the four bytes [FE address 06 FF] occur contiguously in what
    the link delivers from the start of the call on. *)
Theorem cache_changes_only_after_ack_bytes (fuel : nat) (self : Rs485Dimmer)
  (transition : pyval) (w : World) :
  (forall brightness r self' w',
      async_turn_on (module_transact fuel) self brightness transition w
      = Some (r, (self', w')) ->
      self' <> self ->
      exists pre post,
        data_of (rx w) = pre ++ [0xFE; module_address self; 0x06; 0xFF] ++ post)
  /\ (forall r self' w',
        async_turn_off (module_transact fuel) self transition w
        = Some (r, (self', w')) ->
        self' <> self ->
        exists pre post,
          data_of (rx w) = pre ++ [0xFE; module_address self; 0x06; 0xFF] ++ post).
Proof.
  split.
  - intros brightness r self' w'. unfold async_turn_on.
    destruct (send_set _ _ _ _ _) as [[[[|] | e] w1] |] eqn:E; try discriminate;
      intros H; injection H as _ <- _; intros N; try (now destruct N).
    exact (send_set_module_ack _ _ _ _ _ _ E).
  - intros r self' w'. unfold async_turn_off.
    destruct (send_set _ _ _ _ _) as [[[[|] | e] w1] |] eqn:E; try discriminate;
      intros H; injection H as _ <- _; intros N; try (now destruct N).
    exact (send_set_module_ack _ _ _ _ _ _ E).
Qed.

Lemma cache_changes_witness :
  exists pre post,
    data_of [ReadTimeout; Chunk [0; 0xFE; 5]; Chunk [0x06; 0xFF; 0]]
    = pre ++ [0xFE; 5; 0x06; 0xFF] ++ post.
Proof.
  destruct (async_turn_on (module_transact 100) (mkDimmer 5 2 false 0) (Some 200)
              VNone
              (open_link [ReadTimeout; Chunk [0; 0xFE; 5]; Chunk [0x06; 0xFF; 0]]))
    as [[r [self' w']] |] eqn:E.
  - refine (proj1 (cache_changes_only_after_ack_bytes 100 (mkDimmer 5 2 false 0)
                     VNone
                     (open_link [ReadTimeout; Chunk [0; 0xFE; 5];
                                 Chunk [0x06; 0xFF; 0]]))
              (Some 200) r self' w' E _).
    vm_compute in E. injection E as _ <- _. discriminate.
  - vm_compute in E. discriminate E.
Defined.

(** ** The command frame and the acknowledgement *)

Lemma checksum_of_odd_sum (payload : list Z) (half : Z) :
  Py.sum payload = 1 + 2 * half -> _checksum_7bit payload <> 6.
Proof.
  intros E H. unfold _checksum_7bit in H. rewrite E in H.
  apply (f_equal (fun x => Z.testbit x 0)) in H.
  rewrite !Z.land_spec, !Z.bit0_odd, Z.odd_add_mul_2 in H. discriminate H.
Qed.

Lemma build_set_message_inv (address channel level fade : Z) (message : list Z) :
  _build_set_message address channel level fade = Ok message ->
  let payload := payload_for (Z.max 1 (Z.min 4 channel)) level fade in
  0 <= address <= 255
  /\ message
     = [0xFF; 0xFE; address; 0x57] ++ payload
       ++ [_checksum_7bit (address :: 0x57 :: payload); 0xFF].
Proof.
  unfold _build_set_message. rewrite build_data_array_payload. cbn [res_bind].
  intros H. apply bytes_inv in H. destruct H as [-> F]. split; [|reflexivity].
  unfold SYNC_BYTE, START_BYTE, CMD_SET in F. cbn [app] in F.
  inversion F as [|? ? _ F1]. inversion F1 as [|? ? _ F2].
  now inversion F2.
Qed.

(** X6: the command frame never contains the acknowledgement pattern of its own
    address, whatever the channel, level and fade time: bytes of the frame
    that come back on the line cannot be taken for the acknowledgement. *)
Theorem frame_never_contains_own_ack (address channel level fade : Z)
  (message : list Z) :
  _build_set_message address channel level fade = Ok message ->
  Py.contains [0xFE; address; 0x06; 0xFF] message = false.
Proof.
  intros H. apply build_set_message_inv in H. cbv zeta in H.
  destruct H as [Ha ->].
  remember (clamp_byte level) as L eqn:HL.
  remember (clamp_byte fade) as T eqn:HT.
  assert (C : Z.max 1 (Z.min 4 channel) = 1 \/ Z.max 1 (Z.min 4 channel) = 2
              \/ Z.max 1 (Z.min 4 channel) = 3 \/ Z.max 1 (Z.min 4 channel) = 4)
    by lia.
  assert (K : _checksum_7bit [address; 87; 1; 5; 1; 5; 1; 5; 254; address] <> 6).
  { apply (checksum_of_odd_sum _ (address + 179)). unfold Py.sum.
    cbn [fold_left]. lia. }
  apply not_true_is_false. intros M.
  destruct C as [C | [C | [C | C]]]; rewrite C in M;
    cbv [payload_for pair_for flat_map Z.eqb Pos.eqb app] in M;
    rewrite <- HL, <- HT in M;
    cbn [Py.contains Py.startswith] in M;
    repeat rewrite ?orb_true_iff, ?andb_true_iff, ?Z.eqb_eq in M;
    try lia.
  destruct M as [M | M]; [lia|]. repeat (destruct M as [M | M]; try lia).
  destruct M as (E1 & E2 & E3 & _). rewrite <- E1, <- E2 in E3.
  symmetry in E3. now apply K.
Qed.

Lemma frame_never_contains_own_ack_witness :
  Py.contains [0xFE; 5; 0x06; 0xFF] sample_message = false.
Proof.
  exact (frame_never_contains_own_ack 5 2 200 3 sample_message eq_refl).
Defined.

(** ** A module address that does not fit a byte *)

Lemma bytes_raises (l : list Z) (x : Z) :
  In x l -> ~ 0 <= x <= 255 -> Py.bytes l = Raise ValueError.
Proof.
  intros Hx N. unfold Py.bytes. destruct (forallb Py.is_byte l) eqn:E;
    [|reflexivity].
  rewrite forallb_forall in E. apply E, is_byte_iff in Hx. now destruct N.
Qed.

Lemma build_set_message_raises (address channel level fade : Z) :
  ~ 0 <= address <= 255 ->
  _build_set_message address channel level fade = Raise ValueError.
Proof.
  intros N. unfold _build_set_message. rewrite build_data_array_payload.
  cbn [res_bind]. apply (bytes_raises _ address); [|exact N].
  cbn. auto.
Qed.

(** X7: with a module address outside 0..255 no frame and no acknowledgement
    pattern can be built: [bytes(...)] raises [ValueError].  Every turn-on and
    turn-off then raises before anything reaches the bus, and the cached state
    stays as it was; this holds for both integrations. *)
Theorem out_of_range_address_raises {Link : Type}
  (transact : list Z -> list (list Z) -> Q -> Q -> Link ->
              option (res (list Z * option (list Z)) * Link))
  (address : Z) :
  ~ 0 <= address <= 255 ->
  (forall channel level fade,
      _build_set_message address channel level fade = Raise ValueError)
  /\ _ack_pattern address = Raise ValueError
  /\ (forall channel on bright brightness transition l,
        async_turn_on transact (mkDimmer address channel on bright) brightness
          transition l
        = Some (Raise ValueError, (mkDimmer address channel on bright, l))
        /\ async_turn_off transact (mkDimmer address channel on bright)
             transition l
           = Some (Raise ValueError, (mkDimmer address channel on bright, l)))
  /\ (forall channel on bright brightness transition w,
        Legacy.async_turn_on (Legacy.mkChannel address channel on bright)
          brightness transition w
        = Some (Raise ValueError, (Legacy.mkChannel address channel on bright, w))
        /\ Legacy.async_turn_off (Legacy.mkChannel address channel on bright)
             transition w
           = Some (Raise ValueError,
                   (Legacy.mkChannel address channel on bright, w))).
Proof.
  intros N. split; [intros; now apply build_set_message_raises|]. split.
  { unfold _ack_pattern. apply (bytes_raises _ address); [cbn; auto | exact N]. }
  split.
  - intros channel on bright brightness transition l.
    unfold async_turn_on, async_turn_off, send_set. cbn [module_address dimmer_index].
    destruct (dimm_time_total transition) as (n & ->). cbn [res_bind].
    now rewrite !build_set_message_raises by exact N.
  - intros channel on bright brightness transition w.
    unfold Legacy.async_turn_on, Legacy.async_turn_off, Legacy.send_set.
    cbn [Legacy.address Legacy._channel].
    destruct (dimm_time_total transition) as (n & ->). cbn [res_bind].
    now rewrite !build_set_message_raises by exact N.
Qed.

Lemma out_of_range_address_witness :
  Legacy.async_turn_on (Legacy.mkChannel 300 1 false 0) (Some 128) VNone
    (open_link [Chunk [0xFE; 44; 0x06; 0xFF]])
  = Some (Raise ValueError,
          (Legacy.mkChannel 300 1 false 0, open_link [Chunk [0xFE; 44; 0x06; 0xFF]])).
Proof.
  exact (proj1 (proj2 (proj2 (proj2
           (out_of_range_address_raises (module_transact 0) 300 ltac:(lia))))
           1 false 0 (Some 128) VNone (open_link [Chunk [0xFE; 44; 0x06; 0xFF]]))).
Defined.

(** * The older integration *)

(** One [Rs485Bus.send]: it never raises, writes the message at most once,
    reads at most once, and a response it hands back is the chunk at the front
    of the script, or the empty bytes of a timeout. *)
Lemma legacy_send_step (message : list Z) (timeout : Q) (w w' : World)
  (r : res (option (list Z))) :
  Legacy.send message timeout w = Some (r, w') ->
  (exists k, rx w' = skipn k (rx w))
  /\ (exists evs,
        trace w' = trace w ++ evs
        /\ (length (writes_of evs) <= 1)%nat
        /\ forall m ok, In (m, ok) (writes_of evs) -> m = message)
  /\ exists result,
       r = Ok result
       /\ forall response,
            result = Some response ->
            response = [] \/ In (Chunk response) (rx w).
Proof.
  unfold Legacy.send.
  destruct (negb (writer_open w) || negb (reader_open w)).
  { intros H. injection H as <- <-. split; [now exists 0%nat|]. split.
    - exists []. rewrite app_nil_r. split; [reflexivity|].
      split; [cbn; lia | intros m ok []].
    - exists None. split; [reflexivity | discriminate]. }
  unfold async_with_lock. destruct (locked w); [discriminate|].
  destruct (write_drain message _) as [ok w1] eqn:E1.
  apply write_drain_events in E1. cbn [trace rx set_locked log] in E1.
  destruct E1 as [T1 R1]. destruct ok.
  - destruct (wait_for_read timeout w1) as [o w2] eqn:E2.
    pose proof (wait_for_read_trace _ _ _ _ E2) as T2.
    apply wait_for_read_rx in E2. destruct E2 as [Eo R2].
    rewrite R1 in Eo, R2.
    assert (common :
              forall result,
                (forall response,
                    result = Some response ->
                    response = [] \/ In (Chunk response) (rx w)) ->
                (exists k, rx (set_locked false (log EvRelease w2)) = skipn k (rx w))
                /\ (exists evs,
                      trace (set_locked false (log EvRelease w2)) = trace w ++ evs
                      /\ (length (writes_of evs) <= 1)%nat
                      /\ forall m ok', In (m, ok') (writes_of evs) -> m = message)
                /\ exists result',
                     Ok result = Ok result'
                     /\ forall response,
                          result' = Some response ->
                          response = [] \/ In (Chunk response) (rx w)).
    { intros result Hres. split; [|split].
      - exists 1%nat. cbn. rewrite R2. now destruct (rx w).
      - exists [EvAcquire; EvWrite message true; EvRead timeout o; EvRelease].
        split.
        + cbn. rewrite T2, T1, <- !app_assoc. reflexivity.
        + split; [cbn; lia|]. intros m ok' [H | []]. now injection H as <- _.
      - exists result. split; [reflexivity | exact Hres]. }
    destruct o as [response | |]; intros H; injection H as <- <-; apply common.
    + intros response' H. injection H as <-. right.
      destruct (rx w) as [|o' rest]; [discriminate Eo|].
      cbn in Eo. subst o'. now left.
    + intros response' H. injection H as <-. now left.
    + discriminate.
  - intros H. injection H as <- <-. split; [|split].
    + exists 0%nat. cbn. exact R1.
    + exists [EvAcquire; EvWrite message false; EvRelease]. split.
      * cbn. rewrite T1, <- !app_assoc. reflexivity.
      * split; [cbn; lia|]. intros m ok' [H | []]. now injection H as <- _.
    + exists None. split; [reflexivity | discriminate].
Qed.

Lemma in_skipn (x : read_outcome) (k : nat) (l : list read_outcome) :
  In x (skipn k l) -> In x l.
Proof.
  intros H. rewrite <- (firstn_skipn k l). apply in_or_app. now right.
Qed.

Lemma legacy_retry_sound (n : nat) (self : Legacy.Udk0410DimmerChannel)
  (message : list Z) (timeout : Q) :
  forall w r w',
    Legacy.send_retry n self message timeout w = Some (r, w') ->
    (exists evs,
        trace w' = trace w ++ evs
        /\ (length (writes_of evs) <= n)%nat
        /\ forall m ok, In (m, ok) (writes_of evs) -> m = message)
    /\ (r = Ok true ->
        exists response,
          In (Chunk response) (rx w)
          /\ _is_ack (Legacy.address self) response = true).
Proof.
  induction n as [|n IH]; intros w r w' H; cbn [Legacy.send_retry] in H.
  - injection H as <- <-. split; [|discriminate].
    exists []. rewrite app_nil_r. split; [reflexivity|].
    split; [cbn; lia | intros m ok []].
  - destruct (Legacy.send message timeout w) as [[r1 w1] |] eqn:E;
      [|discriminate].
    destruct (legacy_send_step _ _ _ _ _ E)
      as ((k & K) & (e1 & T1 & L1 & M1) & result & -> & Hres).
    assert (next :
              Legacy.send_retry n self message timeout w1 = Some (r, w') ->
              (exists evs,
                  trace w' = trace w ++ evs
                  /\ (length (writes_of evs) <= S n)%nat
                  /\ forall m ok, In (m, ok) (writes_of evs) -> m = message)
              /\ (r = Ok true ->
                  exists response,
                    In (Chunk response) (rx w)
                    /\ _is_ack (Legacy.address self) response = true)).
    { intros H'. destruct (IH _ _ _ H') as ((e2 & T2 & L2 & M2) & S2). split.
      - exists (e1 ++ e2). split; [now rewrite T2, T1, app_assoc|].
        rewrite writes_of_app, length_app. split; [lia|].
        intros m ok Hin. apply in_app_or in Hin. destruct Hin as [Hin | Hin].
        + exact (M1 _ _ Hin).
        + exact (M2 _ _ Hin).
      - intros Hr. destruct (S2 Hr) as (response & Hin & A).
        exists response. split; [|exact A]. rewrite K in Hin.
        exact (in_skipn _ _ _ Hin). }
    destruct result as [response|]; [|exact (next H)].
    destruct (_is_ack (Legacy.address self) response) eqn:A; [|exact (next H)].
    injection H as <- <-. split.
    + exists e1. split; [exact T1|]. split; [lia | exact M1].
    + intros _. exists response. split; [|exact A].
      destruct (Hres response eq_refl) as [-> | Hin]; [discriminate A | exact Hin].
Qed.

(** X8: in the older integration a turn-on or turn-off writes its frame at most
    three times and changes the cached state only if one single read delivered
    a chunk that starts with [FE address 06 FF]. *)
Theorem legacy_cache_changes_only_after_aligned_ack
  (self : Legacy.Udk0410DimmerChannel) (transition : pyval) (w : World) :
  (forall brightness r self' w',
      Legacy.async_turn_on self brightness transition w = Some (r, (self', w')) ->
      (exists evs,
          trace w' = trace w ++ evs /\ (length (writes_of evs) <= 3)%nat)
      /\ (self' <> self ->
          exists response post,
            In (Chunk response) (rx w)
            /\ response = [0xFE; Legacy.address self; 0x06; 0xFF] ++ post))
  /\ (forall r self' w',
        Legacy.async_turn_off self transition w = Some (r, (self', w')) ->
        (exists evs,
            trace w' = trace w ++ evs /\ (length (writes_of evs) <= 3)%nat)
        /\ (self' <> self ->
            exists response post,
              In (Chunk response) (rx w)
              /\ response = [0xFE; Legacy.address self; 0x06; 0xFF] ++ post)).
Proof.
  assert (S : forall level r w',
             Legacy.send_set self level transition w = Some (r, w') ->
             (exists evs,
                 trace w' = trace w ++ evs /\ (length (writes_of evs) <= 3)%nat)
             /\ (r = Ok true ->
                 exists response post,
                   In (Chunk response) (rx w)
                   /\ response = [0xFE; Legacy.address self; 0x06; 0xFF] ++ post)).
  { intros level r w'. unfold Legacy.send_set.
    destruct (_ <- _ ;; _) as [message | e].
    - unfold Legacy._send_with_ack. change (Z.to_nat 3) with 3%nat.
      intros H. destruct (legacy_retry_sound _ _ _ _ _ _ _ H)
        as ((evs & T & L & _) & A).
      split; [now exists evs|]. intros Hr.
      destruct (A Hr) as (response & Hin & Hack).
      assert (exists post,
                 response = [0xFE; Legacy.address self; 0x06; 0xFF] ++ post)
        as (post & P).
      { revert Hack. unfold _is_ack. intros Hack.
        repeat (apply andb_true_iff in Hack; destruct Hack as [Hack ?]).
        apply Z.leb_le in Hack.
        destruct response as [|b0 [|b1 [|b2 [|b3 post]]]]; cbn in Hack; try lia.
        cbn in *. exists post.
        repeat match goal with E : (_ =? _) = true |- _ => apply Z.eqb_eq in E end.
        now subst. }
      now exists response, post.
    - intros H. injection H as <- <-. split; [|discriminate].
      exists []. rewrite app_nil_r. split; [reflexivity | cbn; lia]. }
  split.
  - intros brightness r self' w'. unfold Legacy.async_turn_on.
    destruct (Legacy.send_set _ _ _ _) as [[[[|] | e] w1] |] eqn:E;
      try discriminate; intros H; injection H as _ <- <-;
      destruct (S _ _ _ E) as (B & A); (split; [exact B|]); intros N;
      try (now destruct N).
    now apply A.
  - intros r self' w'. unfold Legacy.async_turn_off.
    destruct (Legacy.send_set _ _ _ _) as [[[[|] | e] w1] |] eqn:E;
      try discriminate; intros H; injection H as _ <- <-;
      destruct (S _ _ _ E) as (B & A); (split; [exact B|]); intros N;
      try (now destruct N).
    now apply A.
Qed.

(** * Configuration: the options flow and the entity set-up

    Embedded from [ha_udk_0410_dimmer/config_flow.py] and
    [ha_udk_0410_dimmer/light.py] ([async_setup_entry]).  A configuration dict
    is a record of optional fields ([None]: the key is missing).  [str.strip]
    and the formatting of integers in f-strings are Python's own and are taken
    as given: [strip], [fmt_d] for [{n}] and [fmt_02d] for [{n:02d}]. *)

From Stdlib Require Import String.

Record dimmer_cfg : Type := mkDim {
  dim_index : option Z;
  dim_name : option string
}.

Record module_cfg : Type := mkMod {
  mod_name : option string;
  mod_address : option Z;
  mod_dimmers : option (list dimmer_cfg)
}.

(** What a step of the options flow answers: the form again, with an error
    on a field, or the saved entry ([_save_and_exit]). *)
Inductive flow_result : Type :=
| ShowForm (field code : string)
| CreateEntry (modules : list module_cfg).

(** The fields of the add-module form. *)
Record add_input : Type := mkAdd {
  add_address : Z;
  add_name : string;
  add_d1 : string;
  add_d2 : string;
  add_d3 : string;
  add_d4 : string
}.

(** The fields of the edit-module form; a channel name may be absent. *)
Record edit_input : Type := mkEdit {
  edit_name : string;
  edit_d : nat -> option string
}.

(** An entity as [async_setup_entry] creates it. *)
Record entity : Type := mkEntity {
  ent_name : string;
  ent_unique_id : string;
  ent_dimmer : Rs485Dimmer
}.

(** [a or b] on strings *)
Definition str_or (a b : string) : string :=
  if String.eqb a EmptyString then b else a.

(** [int(m.get(MOD_ADDRESS))] *)
Definition address_of (m : module_cfg) : res Z :=
  match mod_address m with
  | Some a => Ok a
  | None => Raise TypeError
  end.

(** [any(int(m.get(MOD_ADDRESS)) == address for m in modules)] *)
Fixpoint any_address (modules : list module_cfg) (address : Z) : res bool :=
  match modules with
  | [] => Ok false
  | m :: rest =>
      a <- address_of m ;;
      if a =? address then Ok true else any_address rest address
  end.

(** [[m for m in modules if int(m.get(MOD_ADDRESS)) != addr]] *)
Fixpoint without_address (modules : list module_cfg) (addr : Z)
  : res (list module_cfg) :=
  match modules with
  | [] => Ok []
  | m :: rest =>
      a <- address_of m ;;
      rest' <- without_address rest addr ;;
      Ok (if a =? addr then rest' else m :: rest')
  end.

Section Flow.

Variable strip : string -> string.
Variable fmt_d : Z -> string.
Variable fmt_02d : Z -> string.

(** [{"index": len(dimmers) + 1, "name": f"Kanal {len(dimmers) + 1}"}] *)
Definition next_dimmer (dimmers : list dimmer_cfg) : dimmer_cfg :=
  let n := Z.of_nat (List.length dimmers) + 1 in
  mkDim (Some n) (Some (String.append "Kanal " (fmt_d n))).

(** [while len(dimmers) < 4: dimmers.append(...)]; the loop runs at most four
    times. *)
Fixpoint pad_loop (rounds : nat) (dimmers : list dimmer_cfg) : list dimmer_cfg :=
  if (List.length dimmers <? 4)%nat then
    match rounds with
    | O => dimmers
    | S rounds' => pad_loop rounds' (dimmers ++ [next_dimmer dimmers])
    end
  else dimmers.

Definition pad_dimmers (dimmers : list dimmer_cfg) : list dimmer_cfg :=
  pad_loop 4 dimmers.

(** [Rs485DimmerOptionsFlowHandler.async_step_add_module] with the form filled
    in; the second component is [self._modules] afterwards. *)
Definition async_step_add_module (modules : list module_cfg) (ui : add_input)
  : res (flow_result * list module_cfg) :=
  let address := add_address ui in
  let name := str_or (strip (add_name ui)) (String.append "M" (fmt_02d address)) in
  taken <- any_address modules address ;;
  if taken then Ok (ShowForm "address" "address_exists", modules)
  else
    let dimmer (i : Z) (typed : string) :=
      mkDim (Some i)
        (Some (str_or (strip typed)
                 (String.append "Dimmer "
                    (String.append (fmt_d address)
                       (String.append "-" (fmt_d i)))))) in
    let dimmers :=
      [dimmer 1 (add_d1 ui); dimmer 2 (add_d2 ui); dimmer 3 (add_d3 ui);
       dimmer 4 (add_d4 ui)] in
    let modules' := modules ++ [mkMod (Some name) (Some address) (Some dimmers)] in
    Ok (CreateEntry modules', modules').

(** [Rs485DimmerOptionsFlowHandler.async_step_remove_module] with a module
    chosen. *)
Definition async_step_remove_module (modules : list module_cfg) (addr : Z)
  : res (flow_result * list module_cfg) :=
  match modules with
  | [] => Ok (CreateEntry [], [])
  | _ =>
      modules' <- without_address modules addr ;;
      Ok (CreateEntry modules', modules')
  end.

(** The loop [for i in range(4)] of [async_step_edit_module_details] on the
    padded list: entry [i] gets index [i + 1] and its new name. *)
Fixpoint renumber (i : nat) (count : nat) (ui : edit_input)
  (dimmers : list dimmer_cfg) : list dimmer_cfg :=
  match count, dimmers with
  | S count', d :: rest =>
      let fallback := String.append "Kanal " (fmt_d (Z.of_nat i + 1)) in
      let typed :=
        match edit_d ui i with
        | Some s => s
        | None => match dim_name d with Some s => s | None => fallback end
        end in
      mkDim (Some (Z.of_nat i + 1)) (Some (str_or (strip typed) fallback))
      :: renumber (S i) count' ui rest
  | _, _ => dimmers
  end.

(** The update [async_step_edit_module_details] applies to the module found. *)
Definition edit_module (ui : edit_input) (m : module_cfg) (a : Z) : module_cfg :=
  let old_name :=
    match mod_name m with
    | Some s => s
    | None => String.append "M" (fmt_02d a)
    end in
  let dimmers := match mod_dimmers m with Some ds => ds | None => [] end in
  mkMod (Some (str_or (strip (edit_name ui)) old_name)) (mod_address m)
    (Some (firstn 4 (renumber 0 4 ui (pad_dimmers dimmers)))).

(** [next((m for m in modules if int(m.get(MOD_ADDRESS)) == addr), None)]
    followed by the update in place of the module found. *)
Fixpoint edit_first (modules : list module_cfg) (addr : Z) (ui : edit_input)
  : res (list module_cfg) :=
  match modules with
  | [] => Ok []
  | m :: rest =>
      a <- address_of m ;;
      if a =? addr then Ok (edit_module ui m a :: rest)
      else
        rest' <- edit_first rest addr ui ;;
        Ok (m :: rest')
  end.

(** [Rs485DimmerOptionsFlowHandler.async_step_edit_module_details] with the
    form filled in for the module at [self._editing_addr]. *)
Definition async_step_edit_module_details (modules : list module_cfg)
  (editing_addr : Z) (ui : edit_input) : res (flow_result * list module_cfg) :=
  modules' <- edit_first modules editing_addr ui ;;
  Ok (CreateEntry modules', modules').

(** The entities [async_setup_entry] creates for one module. *)
Definition module_entities (m : module_cfg) : list entity :=
  let module_name := match mod_name m with Some s => s | None => "Module"%string end in
  let module_addr := match mod_address m with Some a => a | None => 1 end in
  let dimmers :=
    pad_dimmers (match mod_dimmers m with Some ds => ds | None => [] end) in
  map
    (fun '(idx, d) =>
       let dimmer_name :=
         match dim_name d with
         | Some s => s
         | None => String.append "Dimmer " (fmt_d (Z.of_nat idx + 1))
         end in
       let dimmer_index :=
         match dim_index d with Some i => i | None => Z.of_nat idx + 1 end in
       mkEntity
         (String.append module_name
            (String.append "D"
               (String.append (fmt_d dimmer_index)
                  (String.append " - " dimmer_name))))
         (String.append "ha_udk_0410_dimmer_"
            (String.append (fmt_d module_addr)
               (String.append "_" (fmt_d dimmer_index))))
         (mkDimmer module_addr dimmer_index false 0))
    (combine (seq 0 4) (firstn 4 dimmers)).

(** The entity list of [async_setup_entry] in [light.py]. *)
Definition setup_entities (modules_cfg : list module_cfg) : list entity :=
  flat_map module_entities modules_cfg.

End Flow.

(** A module as the options flow stores it: name and address present, four
    dimmers numbered 1 to 4. *)
Definition flow_made (m : module_cfg) : Prop :=
  (exists name, mod_name m = Some name)
  /\ (exists a, mod_address m = Some a)
  /\ exists n1 n2 n3 n4,
       mod_dimmers m
       = Some [mkDim (Some 1) (Some n1); mkDim (Some 2) (Some n2);
               mkDim (Some 3) (Some n3); mkDim (Some 4) (Some n4)].

(** The module list the options flow maintains: flow-made modules with
    pairwise different addresses. *)
Definition flow_invariant (modules : list module_cfg) : Prop :=
  Forall flow_made modules /\ NoDup (map mod_address modules).

Section FlowProperties.

Variable strip : string -> string.
Variable fmt_d : Z -> string.
Variable fmt_02d : Z -> string.

Lemma pad_loop_length (rounds : nat) :
  forall dimmers,
    (4 <= List.length dimmers + rounds)%nat ->
    (4 <= List.length (pad_loop fmt_d rounds dimmers))%nat.
Proof.
  induction rounds as [|rounds IH]; intros dimmers H; cbn [pad_loop];
    destruct (List.length dimmers <? 4)%nat eqn:E;
    try (apply Nat.ltb_ge in E; exact E).
  - lia.
  - apply IH. rewrite length_app. cbn. lia.
Qed.

Lemma pad_dimmers_length (dimmers : list dimmer_cfg) :
  (4 <= List.length (pad_dimmers fmt_d dimmers))%nat.
Proof. apply pad_loop_length. lia. Qed.

Lemma pad_loop_full (rounds : nat) (dimmers : list dimmer_cfg) :
  (4 <= List.length dimmers)%nat -> pad_loop fmt_d rounds dimmers = dimmers.
Proof.
  intros H. destruct rounds; cbn [pad_loop];
    now replace (List.length dimmers <? 4)%nat with false
      by (symmetry; apply Nat.ltb_ge; exact H).
Qed.

Lemma module_entities_length (m : module_cfg) :
  List.length (module_entities fmt_d m) = 4%nat.
Proof.
  unfold module_entities. rewrite length_map, length_combine, length_seq.
  rewrite length_firstn.
  pose proof (pad_dimmers_length
                (match mod_dimmers m with Some ds => ds | None => [] end)).
  lia.
Qed.

Lemma module_entities_flow_made (m : module_cfg) :
  flow_made m ->
  exists a,
    mod_address m = Some a
    /\ map ent_dimmer (module_entities fmt_d m)
       = [mkDimmer a 1 false 0; mkDimmer a 2 false 0; mkDimmer a 3 false 0;
          mkDimmer a 4 false 0].
Proof.
  intros (_ & (a & Ha) & n1 & n2 & n3 & n4 & Hd). exists a.
  split; [exact Ha|]. unfold module_entities. rewrite Ha, Hd.
  unfold pad_dimmers. rewrite pad_loop_full by (cbn; lia). reflexivity.
Qed.

(** X9: for every module of the configuration [async_setup_entry] creates exactly
    four entities, whatever its list of dimmers holds (nothing, fewer than
    four, more than four); each starts switched off with brightness 0 and
    carries the module's address (1 when the address is missing).  A module
    without dimmers gets the channels 1, 2, 3, 4. *)
Theorem setup_creates_four_entities_per_module (modules_cfg : list module_cfg) :
  List.length (setup_entities fmt_d modules_cfg)
  = (4 * List.length modules_cfg)%nat
  /\ (forall e,
        In e (setup_entities fmt_d modules_cfg) ->
        _is_on (ent_dimmer e) = false
        /\ _brightness (ent_dimmer e) = 0
        /\ exists m,
             In m modules_cfg
             /\ module_address (ent_dimmer e)
                = match mod_address m with Some a => a | None => 1 end)
  /\ (forall m,
        mod_dimmers m = None \/ mod_dimmers m = Some [] ->
        map (fun e => dimmer_index (ent_dimmer e)) (module_entities fmt_d m)
        = [1; 2; 3; 4]).
Proof.
  split; [|split].
  - unfold setup_entities. induction modules_cfg as [|m rest IH]; [reflexivity|].
    cbn [flat_map]. rewrite length_app, IH, module_entities_length. cbn. lia.
  - intros e He. unfold setup_entities in He. apply in_flat_map in He.
    destruct He as (m & Hm & He). unfold module_entities in He.
    apply in_map_iff in He. destruct He as ([idx d] & <- & _). cbn.
    split; [reflexivity|]. split; [reflexivity|]. now exists m.
  - intros m [H | H]; unfold module_entities; rewrite H; reflexivity.
Qed.

Lemma any_address_spec (modules : list module_cfg) (address : Z) :
  Forall flow_made modules ->
  exists taken,
    any_address modules address = Ok taken
    /\ (taken = true <-> In (Some address) (map mod_address modules)).
Proof.
  induction 1 as [|m rest Hm _ IH].
  - exists false. split; [reflexivity|]. split; [discriminate | intros []].
  - destruct Hm as (_ & (a & Ha) & _). destruct IH as (t & Et & Ht).
    cbn [any_address map]. unfold address_of. rewrite Ha. cbn [res_bind].
    destruct (a =? address) eqn:E.
    + apply Z.eqb_eq in E. subst a. exists true.
      split; [reflexivity|]. split; [intros _; now left | reflexivity].
    + apply Z.eqb_neq in E. exists t. split; [exact Et|]. rewrite Ht.
      split; [intros H; now right|]. intros [H | H]; [|exact H].
      injection H as H. now destruct E.
Qed.

Lemma without_address_spec (modules : list module_cfg) (addr : Z) :
  Forall flow_made modules ->
  without_address modules addr
  = Ok (filter (fun m => negb (match mod_address m with
                               | Some a => a =? addr
                               | None => false
                               end)) modules).
Proof.
  induction 1 as [|m rest Hm _ IH]; [reflexivity|].
  destruct Hm as (_ & (a & Ha) & _).
  cbn [without_address filter]. unfold address_of. rewrite Ha, IH.
  cbn [res_bind]. now destruct (a =? addr).
Qed.

Lemma renumber_four (ui : edit_input) (d0 d1 d2 d3 : dimmer_cfg)
  (rest : list dimmer_cfg) :
  exists n1 n2 n3 n4,
    firstn 4 (renumber strip fmt_d 0 4 ui (d0 :: d1 :: d2 :: d3 :: rest))
    = [mkDim (Some 1) (Some n1); mkDim (Some 2) (Some n2);
       mkDim (Some 3) (Some n3); mkDim (Some 4) (Some n4)].
Proof. cbn. now eexists _, _, _, _. Qed.

Lemma edit_module_flow_made (ui : edit_input) (m : module_cfg) (a : Z) :
  mod_address m = Some a ->
  flow_made (edit_module strip fmt_d fmt_02d ui m a)
  /\ mod_address (edit_module strip fmt_d fmt_02d ui m a) = mod_address m.
Proof.
  intros Ha. split; [|reflexivity]. unfold edit_module, flow_made.
  cbn [mod_name mod_address mod_dimmers].
  split; [now eexists|]. split; [now exists a|].
  pose proof (pad_dimmers_length
                (match mod_dimmers m with Some ds => ds | None => [] end)) as L.
  destruct (pad_dimmers fmt_d _) as [|d0 [|d1 [|d2 [|d3 rest]]]];
    cbn in L; try lia.
  destruct (renumber_four ui d0 d1 d2 d3 rest) as (n1 & n2 & n3 & n4 & ->).
  now exists n1, n2, n3, n4.
Qed.

Lemma edit_first_spec (modules : list module_cfg) (addr : Z) (ui : edit_input) :
  Forall flow_made modules ->
  exists modules',
    edit_first strip fmt_d fmt_02d modules addr ui = Ok modules'
    /\ Forall flow_made modules'
    /\ map mod_address modules' = map mod_address modules.
Proof.
  induction 1 as [|m rest Hm Hrest IH].
  - exists []. repeat split. constructor.
  - destruct (Hm) as (_ & (a & Ha) & _). destruct IH as (rest' & E & F & A).
    cbn [edit_first]. unfold address_of. rewrite Ha. cbn [res_bind].
    destruct (a =? addr).
    + destruct (edit_module_flow_made ui m a Ha) as [Fm Am].
      eexists. split; [reflexivity|]. split; [now constructor|].
      cbn [map]. now rewrite Am.
    + rewrite E. cbn [res_bind]. eexists. split; [reflexivity|].
      split; [now constructor|]. cbn [map]. now rewrite A.
Qed.

Lemma nodup_filter_map (modules : list module_cfg) (keep : module_cfg -> bool) :
  NoDup (map mod_address modules) ->
  NoDup (map mod_address (filter keep modules)).
Proof.
  induction modules as [|m rest IH]; intros H; [exact H|].
  cbn [map] in H. inversion H as [|? ? Hn Hr]. subst.
  cbn [filter]. destruct (keep m); [|now apply IH].
  cbn [map]. constructor; [|now apply IH].
  intros Hin. apply Hn. apply in_map_iff in Hin.
  destruct Hin as (x & Ex & Hx). apply filter_In in Hx.
  apply in_map_iff. exists x. now split.
Qed.

(** X10: the options flow keeps its module list well formed.  Starting from a list
    of flow-made modules with pairwise different addresses: adding a module
    whose address is taken shows the form with [address_exists] and changes
    nothing; adding one with a new address appends it with four dimmers
    numbered 1 to 4; removing keeps exactly the modules with another address;
    editing keeps every address and leaves four dimmers numbered 1 to 4.  No
    step raises, and each result is again such a list. *)
Theorem options_flow_keeps_modules_well_formed (modules : list module_cfg) :
  flow_invariant modules ->
  (forall ui,
      exists r modules',
        async_step_add_module strip fmt_d fmt_02d modules ui = Ok (r, modules')
        /\ flow_invariant modules'
        /\ (In (Some (add_address ui)) (map mod_address modules) ->
            r = ShowForm "address" "address_exists" /\ modules' = modules)
        /\ (~ In (Some (add_address ui)) (map mod_address modules) ->
            r = CreateEntry modules'
            /\ exists m,
                 modules' = modules ++ [m]
                 /\ mod_address m = Some (add_address ui)
                 /\ flow_made m))
  /\ (forall addr,
        exists modules',
          async_step_remove_module modules addr = Ok (CreateEntry modules', modules')
          /\ flow_invariant modules'
          /\ ~ In (Some addr) (map mod_address modules')
          /\ forall m,
               In m modules' <-> In m modules /\ mod_address m <> Some addr)
  /\ (forall addr ui,
        exists modules',
          async_step_edit_module_details strip fmt_d fmt_02d modules addr ui
          = Ok (CreateEntry modules', modules')
          /\ flow_invariant modules'
          /\ map mod_address modules' = map mod_address modules).
Proof.
  intros [F N]. split; [|split].
  - intros ui. unfold async_step_add_module.
    destruct (any_address_spec modules (add_address ui) F) as (taken & -> & T).
    cbn [res_bind]. destruct taken.
    + eexists _, _. split; [reflexivity|]. split; [now split|]. split.
      * intros _. now split.
      * intros Hn. destruct Hn. now apply T.
    + eexists _, _. split; [reflexivity|].
      assert (Hn : ~ In (Some (add_address ui)) (map mod_address modules)).
      { intros Hin. apply T in Hin. discriminate Hin. }
      assert (Fm : flow_made
                     (mkMod
                        (Some (str_or (strip (add_name ui))
                                 (String.append "M" (fmt_02d (add_address ui)))))
                        (Some (add_address ui))
                        (Some
                           [mkDim (Some 1)
                              (Some (str_or (strip (add_d1 ui))
                                       (String.append "Dimmer "
                                          (String.append (fmt_d (add_address ui))
                                             (String.append "-" (fmt_d 1))))));
                            mkDim (Some 2)
                              (Some (str_or (strip (add_d2 ui))
                                       (String.append "Dimmer "
                                          (String.append (fmt_d (add_address ui))
                                             (String.append "-" (fmt_d 2))))));
                            mkDim (Some 3)
                              (Some (str_or (strip (add_d3 ui))
                                       (String.append "Dimmer "
                                          (String.append (fmt_d (add_address ui))
                                             (String.append "-" (fmt_d 3))))));
                            mkDim (Some 4)
                              (Some (str_or (strip (add_d4 ui))
                                       (String.append "Dimmer "
                                          (String.append (fmt_d (add_address ui))
                                             (String.append "-" (fmt_d 4))))))]))).
      { split; [now eexists|]. split; [now eexists|]. now eexists _, _, _, _. }
      split; [|split].
      * split.
        -- apply Forall_app. split; [exact F | now constructor].
        -- rewrite map_app. cbn [map mod_address].
           apply NoDup_app; [exact N | repeat constructor; intros [] |].
           intros x Hx [<- | []]. now apply Hn.
      * intros Hin. now destruct Hn.
      * intros _. split; [reflexivity|]. eexists. split; [reflexivity|].
        split; [reflexivity | exact Fm].
  - intros addr.
    assert (E : exists modules',
               without_address modules addr = Ok modules'
               /\ modules'
                  = filter (fun m => negb (match mod_address m with
                                           | Some a => a =? addr
                                           | None => false
                                           end)) modules).
    { eexists. split; [now apply without_address_spec | reflexivity]. }
    destruct E as (modules' & E & D).
    assert (M : forall m,
               In m modules' <-> In m modules /\ mod_address m <> Some addr).
    { intros m. rewrite D, filter_In. split; intros [Hin Hk]; (split; [exact Hin|]).
      - intros Ha. rewrite Ha, Z.eqb_refl in Hk. discriminate Hk.
      - destruct (mod_address m) as [a|]; [|reflexivity].
        destruct (a =? addr) eqn:Q; [|reflexivity].
        apply Z.eqb_eq in Q. subst a. now destruct Hk. }
    exists modules'. split; [|split; [|split; [|exact M]]].
    + unfold async_step_remove_module. destruct modules as [|m0 rest].
      * cbn in D. now subst modules'.
      * rewrite E. reflexivity.
    + split.
      * rewrite D. apply Forall_forall. intros m Hm. apply filter_In in Hm.
        rewrite Forall_forall in F. now apply F.
      * rewrite D. now apply nodup_filter_map.
    + intros Hin. apply in_map_iff in Hin. destruct Hin as (m & Hm & Hin).
      apply M in Hin. now destruct Hin.
  - intros addr ui. unfold async_step_edit_module_details.
    destruct (edit_first_spec modules addr ui F) as (modules' & -> & F' & A).
    exists modules'. split; [reflexivity|]. split; [|exact A].
    split; [exact F' | now rewrite A].
Qed.

(** The bus address and channel an entity drives. *)
Definition target (e : entity) : Z * Z :=
  (module_address (ent_dimmer e), dimmer_index (ent_dimmer e)).

Lemma setup_targets_flow_made (modules : list module_cfg) :
  Forall flow_made modules ->
  forall a i,
    In (a, i) (map target (setup_entities fmt_d modules)) ->
    In (Some a) (map mod_address modules) /\ 1 <= i <= 4.
Proof.
  induction 1 as [|m rest Hm _ IH]; intros a i Hin; [destruct Hin|].
  unfold setup_entities in Hin. cbn [flat_map] in Hin.
  rewrite map_app in Hin. apply in_app_or in Hin. destruct Hin as [Hin | Hin].
  - destruct (module_entities_flow_made m Hm) as (a0 & Ha0 & E).
    assert (T : map target (module_entities fmt_d m)
                = [(a0, 1); (a0, 2); (a0, 3); (a0, 4)]).
    { unfold target. rewrite <- (map_map ent_dimmer
                                   (fun d => (module_address d, dimmer_index d))).
      now rewrite E. }
    rewrite T in Hin. cbn [map]. rewrite Ha0.
    destruct Hin as [H | [H | [H | [H | []]]]]; injection H as <- <-;
      (split; [now left | lia]).
  - destruct (IH a i Hin) as [Ha Hi]. split; [now right | exact Hi].
Qed.

(** X11: on a module list kept by the options flow, [async_setup_entry] creates
    entities that drive pairwise different (address, channel) pairs, every
    channel between 1 and 4 and every address one of the configured ones: no
    two entities command the same dimmer. *)
Theorem setup_on_flow_configuration_targets_distinct (modules : list module_cfg) :
  flow_invariant modules ->
  NoDup (map target (setup_entities fmt_d modules))
  /\ forall e,
       In e (setup_entities fmt_d modules) ->
       1 <= dimmer_index (ent_dimmer e) <= 4
       /\ In (Some (module_address (ent_dimmer e))) (map mod_address modules).
Proof.
  intros [F N]. split.
  - induction modules as [|m rest IH]; [constructor|].
    inversion F as [|? ? Hm Hrest]. subst.
    cbn [map] in N. inversion N as [|? ? Hn Nrest]. subst.
    unfold setup_entities. cbn [flat_map]. rewrite map_app.
    destruct (module_entities_flow_made m Hm) as (a0 & Ha0 & E).
    assert (T : map target (module_entities fmt_d m)
                = [(a0, 1); (a0, 2); (a0, 3); (a0, 4)]).
    { unfold target. rewrite <- (map_map ent_dimmer
                                   (fun d => (module_address d, dimmer_index d))).
      now rewrite E. }
    rewrite T. apply NoDup_app.
    + repeat constructor; cbn; intros H;
        repeat (destruct H as [H | H]; try discriminate H); exact H.
    + exact (IH Hrest Nrest).
    + intros [a i] Hin Hin'.
      destruct (setup_targets_flow_made rest Hrest a i Hin') as [Ha _].
      assert (a = a0) as ->.
      { destruct Hin as [H | [H | [H | [H | []]]]]; now injection H as <- _. }
      apply Hn. now rewrite Ha0.
  - intros e He.
    destruct (setup_targets_flow_made modules F (module_address (ent_dimmer e))
                (dimmer_index (ent_dimmer e))) as [Ha Hi].
    + apply in_map_iff. now exists e.
    + now split.
Qed.

End FlowProperties.

(** An instance of Python's string helpers for worked examples: no blanks to
    strip, numbers printed as a fixed mark. *)
Definition sample_strip (s : string) : string := s.
Definition sample_fmt (n : Z) : string := "#"%string.

Lemma options_flow_witness :
  exists r modules',
    async_step_add_module sample_strip sample_fmt sample_fmt []
      (mkAdd 7 "Flur" "" "" "" "")
    = Ok (r, modules')
    /\ flow_invariant modules'.
Proof.
  destruct (proj1 (options_flow_keeps_modules_well_formed sample_strip sample_fmt
                     sample_fmt []
                     (conj (Forall_nil flow_made) (NoDup_nil (option Z))))
              (mkAdd 7 "Flur" "" "" "" "")) as (r & modules' & E & I & _).
  now exists r, modules'.
Defined.

(** Two modules as the options flow stores them. *)
Definition sample_modules : list module_cfg :=
  [mkMod (Some "Flur"%string) (Some 7)
     (Some [mkDim (Some 1) (Some "Decke"%string);
            mkDim (Some 2) (Some "Wand"%string);
            mkDim (Some 3) (Some "Kanal 3"%string);
            mkDim (Some 4) (Some "Kanal 4"%string)]);
   mkMod (Some "Bad"%string) (Some 9)
     (Some [mkDim (Some 1) (Some "Spiegel"%string);
            mkDim (Some 2) (Some "Decke"%string);
            mkDim (Some 3) (Some "Kanal 3"%string);
            mkDim (Some 4) (Some "Kanal 4"%string)])].

Lemma sample_modules_invariant : flow_invariant sample_modules.
Proof.
  split.
  - repeat constructor; try (now eexists); now eexists _, _, _, _.
  - repeat constructor; cbn; intros H;
      repeat (destruct H as [H | H]; try discriminate H); exact H.
Qed.

Lemma setup_on_flow_configuration_witness :
  map target (setup_entities sample_fmt sample_modules)
  = [(7, 1); (7, 2); (7, 3); (7, 4); (9, 1); (9, 2); (9, 3); (9, 4)]
  /\ NoDup (map target (setup_entities sample_fmt sample_modules)).
Proof.
  split; [reflexivity|].
  exact (proj1 (setup_on_flow_configuration_targets_distinct sample_fmt
                  sample_modules sample_modules_invariant)).
Defined.

(** * Opening the link, and keeping it open *)

(** [Rs485Module.connect] / [Rs485Bus.connect]; [opens] tells whether
    [serial_asyncio.open_serial_connection] succeeds when it is called. *)
Definition connect (opens : bool) (w : World) : res unit * World :=
  if writer_open w && reader_open w then (Ok tt, w)
  else if opens then
    (Ok tt,
     mkWorld true true (locked w) (clock w) (ticks w) (rx w) (wr w) (trace w))
  else (Raise OSError, w).

Lemma send_and_wait_for_handles (fuel : nat) (message : list Z)
  (patterns : list (list Z)) (tt rct : Q) (max_buffer : Z) (flush : bool)
  (w w' : World) (r : res (list Z * option (list Z))) :
  send_and_wait_for fuel message patterns tt rct max_buffer flush w = Some (r, w') ->
  reader_open w' = reader_open w /\ writer_open w' = writer_open w.
Proof.
  unfold send_and_wait_for.
  destruct (negb (writer_open w) || negb (reader_open w)).
  { intros H. injection H as _ <-. now split. }
  unfold async_with_lock. destruct (locked w); [discriminate|].
  destruct (locked_body _ _ _ _ _ _ _ _) as [[r1 w1] |] eqn:B; [|discriminate].
  intros H. injection H as _ <-.
  apply locked_body_advances in B. destruct B as (R & W & _). now split.
Qed.

Lemma retry_module_handles (fuel : nat) (message ack : list Z) (tt rct : Q)
  (n : nat) :
  forall w r w',
    retry (module_transact fuel) n message ack tt rct w = Some (r, w') ->
    reader_open w' = reader_open w /\ writer_open w' = writer_open w.
Proof.
  induction n as [|n IH]; intros w r w' H; cbn [retry] in H.
  - injection H as _ <-. now split.
  - destruct (module_transact fuel message [ack] tt rct w)
      as [[[[buf found] | e] w1] |] eqn:E; try discriminate;
      unfold module_transact in E;
      apply send_and_wait_for_handles in E; destruct E as [R W].
    + destruct (matched_is found ack).
      * injection H as _ <-. now split.
      * apply IH in H. destruct H as [R' W']. split; congruence.
    + injection H as _ <-. now split.
Qed.

(** X12: [connect] leaves a connected link alone and, when the port opens, connects
    an unconnected one; when it does not open, [connect] raises and the link
    stays unconnected.  Nothing the controller does afterwards closes the
    link: a turn-on or turn-off through the real module, with any number of
    transactions, returns with reader and writer as they were, so a link
    connected once is never reported as unconnected by a later transaction. *)
Theorem link_once_connected_stays_connected (fuel : nat) (self : Rs485Dimmer)
  (transition : pyval) (w : World) :
  (reader_open w = true -> writer_open w = true ->
   forall opens, connect opens w = (Ok tt, w))
  /\ (forall w1,
        connect true w = (Ok tt, w1) ->
        reader_open w1 = true /\ writer_open w1 = true
        /\ connect true w1 = (Ok tt, w1))
  /\ (reader_open w = false \/ writer_open w = false ->
      connect false w = (Raise OSError, w))
  /\ (forall brightness r self' w',
        async_turn_on (module_transact fuel) self brightness transition w
        = Some (r, (self', w')) ->
        reader_open w' = reader_open w /\ writer_open w' = writer_open w)
  /\ (forall r self' w',
        async_turn_off (module_transact fuel) self transition w
        = Some (r, (self', w')) ->
        reader_open w' = reader_open w /\ writer_open w' = writer_open w).
Proof.
  assert (S : forall level r w',
             send_set (module_transact fuel) self level transition w
             = Some (r, w') ->
             reader_open w' = reader_open w /\ writer_open w' = writer_open w).
  { intros level r w'. unfold send_set.
    destruct (_ <- _ ;; _) as [message | e].
    - unfold sende_befehl_mit_ack.
      destruct (_ack_pattern (module_address self)) as [ack | e].
      + apply retry_module_handles.
      + intros H. injection H as _ <-. now split.
    - intros H. injection H as _ <-. now split. }
  split; [|split; [|split; [|split]]].
  - intros Hr Hw opens. unfold connect. now rewrite Hr, Hw.
  - intros w1. unfold connect.
    destruct (writer_open w) eqn:Hw, (reader_open w) eqn:Hr; cbn [andb];
      intros H; injection H as <-; cbn;
      try (now repeat split).
    now rewrite Hw, Hr.
  - intros [H | H]; unfold connect; rewrite H; [now rewrite andb_false_r|].
    reflexivity.
  - intros brightness r self' w'. unfold async_turn_on.
    destruct (send_set _ _ _ _ _) as [[[[|] | e] w1] |] eqn:E; try discriminate;
      intros H; injection H as _ _ <-; exact (S _ _ _ E).
  - intros r self' w'. unfold async_turn_off.
    destruct (send_set _ _ _ _ _) as [[[[|] | e] w1] |] eqn:E; try discriminate;
      intros H; injection H as _ _ <-; exact (S _ _ _ E).
Qed.

(** * Entity set-up of the older integration

    Embedded from [udk_0410_dimmer/light.py]: [_modules_from_options],
    [async_setup_entry], [async_setup_platform] and the constructor of
    [Udk0410DimmerChannel].  A Python dict with integer keys is an association
    list; a lookup of a missing key ([KeyError]) is [None]. *)

Module LegacySetup.

Record ModuleConfig : Type := mkModuleConfig {
  name : string;
  address : Z;
  ch_names : list (Z * string)
}.

(** A module of the entry's options, each key possibly missing. *)
Record raw_module : Type := mkRaw {
  raw_name : option string;
  raw_address : option Z;
  raw_ch1 : option string;
  raw_ch2 : option string;
  raw_ch3 : option string;
  raw_ch4 : option string
}.

(** A light entity: its name, its unique id and the channel it drives. *)
Record light : Type := mkLight {
  attr_name : string;
  attr_unique_id : string;
  channel_of : Legacy.Udk0410DimmerChannel
}.

(** [d[k]] *)
Fixpoint dict_get (d : list (Z * string)) (k : Z) : option string :=
  match d with
  | [] => None
  | (k', v) :: rest => if k' =? k then Some v else dict_get rest k
  end.

(** [d[k] = v] *)
Fixpoint dict_set (d : list (Z * string)) (k : Z) (v : string) : list (Z * string) :=
  match d with
  | [] => [(k, v)]
  | (k', v') :: rest =>
      if k' =? k then (k, v) :: rest else (k', v') :: dict_set rest k v
  end.

Section WithFormat.

Variable fmt_d : Z -> string.
Variable fmt_02d : Z -> string.
Variable DOMAIN : string.

(** [Udk0410DimmerChannel.__init__] *)
Definition new_channel (port : string) (module : ModuleConfig) (channel : Z)
  : option light :=
  match dict_get (ch_names module) channel with
  | None => None
  | Some ch_name =>
      Some
        (mkLight
           (String.append (name module)
              (String.append " D"
                 (String.append (fmt_d channel) (String.append " - " ch_name))))
           (String.append DOMAIN
              (String.append "_"
                 (String.append port
                    (String.append "_"
                       (String.append (fmt_d (address module))
                          (String.append "_" (fmt_d channel)))))))
           (Legacy.mkChannel (address module) channel false 0))
  end.

(** [for ch in (1, 2, 3, 4): entities.append(Udk0410DimmerChannel(...))] *)
Definition module_lights (port : string) (module : ModuleConfig) : option (list light) :=
  fold_left
    (fun acc ch =>
       match acc, new_channel port module ch with
       | Some entities, Some e => Some (entities ++ [e])
       | _, _ => None
       end)
    [1; 2; 3; 4] (Some []).

Definition all_lights (port : string) (modules : list ModuleConfig)
  : option (list light) :=
  fold_left
    (fun acc module =>
       match acc, module_lights port module with
       | Some entities, Some es => Some (entities ++ es)
       | _, _ => None
       end)
    modules (Some []).

(** One module of [_modules_from_options]. *)
Definition module_from_options (m : raw_module) : ModuleConfig :=
  let addr := match raw_address m with Some a => a | None => 1 end in
  let or_default (v : option string) (d : string) :=
    match v with Some s => s | None => d end in
  mkModuleConfig
    (or_default (raw_name m) (String.append "M" (fmt_02d addr)))
    addr
    [(1, or_default (raw_ch1 m) "Dimmer 1"%string);
     (2, or_default (raw_ch2 m) "Dimmer 2"%string);
     (3, or_default (raw_ch3 m) "Dimmer 3"%string);
     (4, or_default (raw_ch4 m) "Dimmer 4"%string)].

(** The entities of [async_setup_entry]. *)
Definition async_setup_entry (port : string) (modules_raw : list raw_module)
  : option (list light) :=
  all_lights port (map module_from_options modules_raw).

(** The loop over [enumerate(dimmers[:4])] of [async_setup_platform]. *)
Definition yaml_ch_names (dimmers : list dimmer_cfg) : option (list (Z * string)) :=
  fold_left
    (fun acc '(idx, d) =>
       match acc with
       | None => None
       | Some names =>
           let ch := match dim_index d with
                     | Some i => i
                     | None => Z.of_nat idx + 1
                     end in
           let ch := Z.max 1 (Z.min 4 ch) in
           match dict_get names ch with
           | None => None
           | Some current =>
               Some (dict_set names ch
                       (match dim_name d with Some s => s | None => current end))
           end
       end)
    (combine (seq 0 4) (firstn 4 dimmers))
    (Some [(1, "Dimmer 1"%string); (2, "Dimmer 2"%string);
           (3, "Dimmer 3"%string); (4, "Dimmer 4"%string)]).

(** One module of [async_setup_platform]. *)
Definition module_from_yaml (m : module_cfg) : option ModuleConfig :=
  match yaml_ch_names (match mod_dimmers m with Some ds => ds | None => [] end) with
  | None => None
  | Some names =>
      Some (mkModuleConfig
              (match mod_name m with Some s => s | None => "Module"%string end)
              (match mod_address m with Some a => a | None => 1 end)
              names)
  end.

(** The entities of [async_setup_platform]. *)
Fixpoint async_setup_platform (port : string) (modules_cfg : list module_cfg)
  : option (list light) :=
  match modules_cfg with
  | [] => Some []
  | m :: rest =>
      match module_from_yaml m with
      | None => None
      | Some module =>
          match module_lights port module, async_setup_platform port rest with
          | Some es, Some entities => Some (es ++ entities)
          | _, _ => None
          end
      end
  end.

End WithFormat.

(** The channel names have exactly the keys 1, 2, 3, 4, in this order. *)
Definition four_keys (names : list (Z * string)) : Prop :=
  map fst names = [1; 2; 3; 4].

End LegacySetup.

Section LegacySetupProperties.

Import LegacySetup.

Variable fmt_d : Z -> string.
Variable fmt_02d : Z -> string.
Variable DOMAIN : string.

Lemma four_keys_inv (names : list (Z * string)) :
  four_keys names ->
  exists a b c d, names = [(1, a); (2, b); (3, c); (4, d)].
Proof.
  unfold four_keys. intros H.
  destruct names as [|[k1 a] [|[k2 b] [|[k3 c] [|[k4 d] [|? ?]]]]];
    try discriminate H.
  cbn in H. injection H as -> -> -> ->. now exists a, b, c, d.
Qed.

Lemma dict_get_four (names : list (Z * string)) (k : Z) :
  four_keys names -> 1 <= k <= 4 -> exists v, dict_get names k = Some v.
Proof.
  intros H Hk. destruct (four_keys_inv _ H) as (a & b & c & d & ->).
  assert (k = 1 \/ k = 2 \/ k = 3 \/ k = 4) as [-> | [-> | [-> | ->]]] by lia;
    cbn; now eexists.
Qed.

Lemma dict_set_four (names : list (Z * string)) (k : Z) (v : string) :
  four_keys names ->
  1 <= k <= 4 ->
  four_keys (dict_set names k v) /\ dict_get (dict_set names k v) k = Some v.
Proof.
  intros H Hk. destruct (four_keys_inv _ H) as (a & b & c & d & ->).
  assert (k = 1 \/ k = 2 \/ k = 3 \/ k = 4) as [-> | [-> | [-> | ->]]] by lia;
    now split.
Qed.

Lemma yaml_fold_four (l : list (nat * dimmer_cfg)) :
  forall names,
    four_keys names ->
    exists names',
      fold_left
        (fun acc '(idx, d) =>
           match acc with
           | None => None
           | Some names =>
               let ch := match dim_index d with
                         | Some i => i
                         | None => Z.of_nat idx + 1
                         end in
               let ch := Z.max 1 (Z.min 4 ch) in
               match dict_get names ch with
               | None => None
               | Some current =>
                   Some (dict_set names ch
                           (match dim_name d with
                            | Some s => s
                            | None => current
                            end))
               end
           end) l (Some names)
      = Some names'
      /\ four_keys names'.
Proof.
  induction l as [|[idx d] l IH]; intros names H.
  - now exists names.
  - cbn [fold_left]. cbv zeta.
    set (ch := Z.max 1 (Z.min 4 (match dim_index d with
                                 | Some i => i
                                 | None => Z.of_nat idx + 1
                                 end))).
    assert (Hch : 1 <= ch <= 4) by (unfold ch; lia).
    destruct (dict_get_four names ch H Hch) as (current & ->).
    apply IH. now apply dict_set_four.
Qed.

Lemma yaml_ch_names_four (dimmers : list dimmer_cfg) :
  exists names, yaml_ch_names dimmers = Some names /\ four_keys names.
Proof. unfold yaml_ch_names. now apply yaml_fold_four. Qed.

Lemma module_from_yaml_four (m : module_cfg) :
  exists module,
    module_from_yaml m = Some module
    /\ four_keys (ch_names module)
    /\ address module = match mod_address m with Some a => a | None => 1 end.
Proof.
  unfold module_from_yaml.
  destruct (yaml_ch_names_four
              (match mod_dimmers m with Some ds => ds | None => [] end))
    as (names & -> & K).
  eexists. split; [reflexivity|]. now split.
Qed.

Lemma module_lights_four (port : string) (module : ModuleConfig) :
  four_keys (ch_names module) ->
  exists es,
    module_lights fmt_d DOMAIN port module = Some es
    /\ map channel_of es
       = [Legacy.mkChannel (address module) 1 false 0;
          Legacy.mkChannel (address module) 2 false 0;
          Legacy.mkChannel (address module) 3 false 0;
          Legacy.mkChannel (address module) 4 false 0].
Proof.
  intros H. destruct (four_keys_inv _ H) as (a & b & c & d & E).
  unfold module_lights, new_channel. rewrite E. cbn. eexists.
  split; reflexivity.
Qed.

(** The bus address and channel a light of the older integration drives. *)
Definition light_target (e : light) : Z * Z :=
  (Legacy.address (channel_of e), Legacy._channel (channel_of e)).

Definition four_targets (a : Z) : list (Z * Z) := [(a, 1); (a, 2); (a, 3); (a, 4)].

Lemma module_lights_targets (port : string) (module : ModuleConfig) :
  four_keys (ch_names module) ->
  exists es,
    module_lights fmt_d DOMAIN port module = Some es
    /\ map light_target es = four_targets (address module)
    /\ Forall (fun e => Legacy._attr_is_on (channel_of e) = false
                        /\ Legacy._attr_brightness (channel_of e) = 0) es.
Proof.
  intros H. destruct (module_lights_four port module H) as (es & E & M).
  exists es. split; [exact E|].
  assert (T : map light_target es
              = map (fun c => (Legacy.address c, Legacy._channel c))
                  (map channel_of es)) by now rewrite map_map.
  split; [now rewrite T, M|].
  apply Forall_forall. intros e He.
  assert (In (channel_of e) (map channel_of es)) as Hin by now apply in_map.
  rewrite M in Hin.
  destruct Hin as [<- | [<- | [<- | [<- | []]]]]; now split.
Qed.

Lemma all_lights_fold (port : string) (modules : list ModuleConfig) :
  Forall (fun m => four_keys (ch_names m)) modules ->
  forall entities,
    exists es,
      fold_left
        (fun acc module =>
           match acc, module_lights fmt_d DOMAIN port module with
           | Some entities, Some es => Some (entities ++ es)
           | _, _ => None
           end) modules (Some entities)
      = Some (entities ++ es)
      /\ map light_target es = flat_map (fun m => four_targets (address m)) modules
      /\ Forall (fun e => Legacy._attr_is_on (channel_of e) = false
                          /\ Legacy._attr_brightness (channel_of e) = 0) es.
Proof.
  induction 1 as [|m rest Hm _ IH]; intros entities.
  - exists []. rewrite app_nil_r. repeat split. constructor.
  - cbn [fold_left flat_map].
    destruct (module_lights_targets port m Hm) as (es & -> & T & O).
    destruct (IH (entities ++ es)) as (es' & -> & T' & O').
    exists (es ++ es'). rewrite app_assoc. split; [reflexivity|]. split.
    + now rewrite map_app, T, T'.
    + now apply Forall_app.
Qed.

(** X13: both set-up paths of the older integration create, for every module and
    whatever its options or YAML entry holds, exactly the four channels 1, 2,
    3, 4 on the module's address (1 when the address is missing), switched off
    with brightness 0; the constructor's lookup of the channel name never
    fails.  In the YAML path a dimmer entry names the channel its index is
    clamped to: an index below 1 names channel 1, an index above 4 names
    channel 4. *)
Theorem legacy_setup_creates_channels_1_to_4 (port : string) :
  (forall modules_raw,
      exists entities,
        async_setup_entry fmt_d fmt_02d DOMAIN port modules_raw = Some entities
        /\ map light_target entities
           = flat_map
               (fun m => four_targets
                           (match raw_address m with Some a => a | None => 1 end))
               modules_raw
        /\ Forall (fun e => Legacy._attr_is_on (channel_of e) = false
                            /\ Legacy._attr_brightness (channel_of e) = 0)
             entities)
  /\ (forall modules_cfg,
        exists entities,
          async_setup_platform fmt_d DOMAIN port modules_cfg = Some entities
          /\ map light_target entities
             = flat_map
                 (fun m => four_targets
                             (match mod_address m with Some a => a | None => 1 end))
                 modules_cfg
          /\ Forall (fun e => Legacy._attr_is_on (channel_of e) = false
                              /\ Legacy._attr_brightness (channel_of e) = 0)
               entities)
  /\ (forall i s,
        exists names,
          yaml_ch_names [mkDim (Some i) (Some s)] = Some names
          /\ four_keys names
          /\ dict_get names (Z.max 1 (Z.min 4 i)) = Some s).
Proof.
  split; [|split].
  - intros modules_raw. unfold async_setup_entry, all_lights.
    destruct (all_lights_fold port (map (module_from_options fmt_02d) modules_raw))
      with (entities := @nil light) as (es & E & T & O).
    { apply Forall_forall. intros m Hm. apply in_map_iff in Hm.
      now destruct Hm as (r & <- & _). }
    exists es. split; [exact E|]. split; [|exact O].
    rewrite T. clear. induction modules_raw as [|m rest IH]; [reflexivity|].
    cbn [map flat_map]. now rewrite IH.
  - intros modules_cfg. induction modules_cfg as [|m rest IH].
    + exists []. repeat split. constructor.
    + destruct IH as (entities & E & T & O).
      cbn [async_setup_platform flat_map].
      destruct (module_from_yaml_four m) as (module & -> & K & A).
      destruct (module_lights_targets port module K) as (es & -> & T' & O').
      rewrite E. exists (es ++ entities). split; [reflexivity|]. split.
      * now rewrite map_app, T, T', A.
      * now apply Forall_app.
  - intros i s. unfold yaml_ch_names. cbn [firstn seq combine fold_left dim_index dim_name].
    cbv zeta.
    assert (Hch : 1 <= Z.max 1 (Z.min 4 i) <= 4) by lia.
    destruct (dict_get_four
                [(1, "Dimmer 1"%string); (2, "Dimmer 2"%string);
                 (3, "Dimmer 3"%string); (4, "Dimmer 4"%string)]
                (Z.max 1 (Z.min 4 i)) eq_refl Hch) as (current & ->).
    eexists. split; [reflexivity|].
    now apply dict_set_four.
Qed.

End LegacySetupProperties.

(** * What the flush keeps out of the receive buffer *)

Lemma flush_loop_data (fuel : nat) :
  forall deadline flushed w out w',
    flush_loop fuel deadline flushed w = Some (Ok out, w') ->
    exists j,
      rx w' = skipn j (rx w)
      /\ out = flushed ++ data_of (firstn j (rx w)).
Proof.
  induction fuel as [|fuel IH]; intros deadline flushed w out w' H;
    cbn [flush_loop] in H; [discriminate|].
  destruct (monotonic w) as [now w1] eqn:E1. apply monotonic_rx in E1.
  destruct (Qltb now deadline).
  - destruct (wait_for_read (1 # 100) w1) as [o w2] eqn:E2.
    apply wait_for_read_rx in E2. destruct E2 as [Eo E2].
    rewrite E1 in Eo, E2.
    assert (step : forall k s,
               rx w' = skipn k (rx w2) ->
               out = s ++ data_of (firstn k (rx w2)) ->
               s = flushed ++ data_of [o] ->
               exists j,
                 rx w' = skipn j (rx w)
                 /\ out = flushed ++ data_of (firstn j (rx w))).
    { intros k s Hk Hs ->. exists (S k). rewrite E2 in Hk, Hs.
      destruct (consume_one (rx w) (rx w') o k flushed Eo Hk) as [K1 K2].
      split; [exact K1 | now rewrite K2]. }
    destruct o as [[|b chunk] | |].
    + injection H as <- <-. apply (step 0%nat flushed); [reflexivity | |].
      * cbn [firstn data_of flat_map]. now rewrite app_nil_r.
      * cbn. now rewrite app_nil_r.
    + destruct (IH _ _ _ _ _ H) as (k & Hk & Hs).
      apply (step k _ Hk Hs). cbn. now rewrite app_nil_r.
    + injection H as <- <-. apply (step 0%nat flushed); [reflexivity | |].
      * cbn [firstn data_of flat_map]. now rewrite app_nil_r.
      * cbn. now rewrite app_nil_r.
    + discriminate H.
  - injection H as <- <-. exists 0%nat. split; [now rewrite E1|].
    cbn [firstn data_of flat_map]. now rewrite app_nil_r.
Qed.

(** X14: [_flush_input] returns exactly the bytes of the reads it consumed; a
    transaction that flushes builds its receive buffer only from what the link
    delivers after those reads, so bytes left over from an earlier exchange
    that the flush took are never part of the buffer that is searched for the
    acknowledgement. *)
Theorem flushed_bytes_stay_out_of_the_buffer (fuel : nat) (message : list Z)
  (patterns : list (list Z)) (tt rct : Q) (max_buffer : Z)
  (w w' : World) (buf : list Z) (found : option (list Z)) :
  1 <= max_buffer ->
  reader_open w = true -> writer_open w = true ->
  send_and_wait_for fuel message patterns tt rct max_buffer true w
  = Some (Ok (buf, found), w') ->
  exists flushed w1 j k,
    _flush_input fuel (8 # 100) (set_locked true (log EvAcquire w))
    = Some (Ok flushed, w1)
    /\ flushed = data_of (firstn j (rx w))
    /\ rx w1 = skipn j (rx w)
    /\ buf = lastn (Z.to_nat max_buffer) (data_of (firstn k (skipn j (rx w)))).
Proof.
  intros Hm Hr Hw. unfold send_and_wait_for. rewrite Hr, Hw. cbn [negb orb].
  unfold async_with_lock. destruct (locked w); [discriminate|].
  destruct (locked_body _ _ _ _ _ _ _ _) as [[r1 w2] |] eqn:B; [|discriminate].
  intros H. injection H as -> _. revert B. unfold locked_body.
  destruct (_flush_input fuel (8 # 100) (set_locked true (log EvAcquire w)))
    as [[[flushed | e] w1] |] eqn:F; try discriminate.
  assert (D : exists j,
             rx w1 = skipn j (rx w) /\ flushed = data_of (firstn j (rx w))).
  { revert F. unfold _flush_input. cbn [reader_open set_locked log].
    rewrite Hr. cbn [negb].
    destruct (monotonic _) as [t0 w0] eqn:E0. apply monotonic_rx in E0.
    cbn [rx set_locked log] in E0.
    intros F. apply flush_loop_data in F. rewrite E0 in F.
    destruct F as (j & J & ->). now exists j. }
  destruct D as (j & J & ->).
  destruct (write_drain message w1) as [ok w3] eqn:E3.
  apply write_drain_events in E3. destruct E3 as [_ R3].
  destruct ok.
  - destruct (monotonic w3) as [t0 w4] eqn:E4. apply monotonic_rx in E4.
    destruct (read_loop _ _ _ _ _ _ w4) as [[[buf1 found1] w5] |] eqn:E;
      [|discriminate].
    intros H. injection H as -> _ _.
    destruct (read_loop_buffer _ _ _ _ _ [] [] _ _ _ _ Hm eq_refl E) as (k & _ & Hb).
    cbn [app] in Hb. rewrite E4, R3, J in Hb.
    exists (data_of (firstn j (rx w))), w1, j, k. now repeat split.
  - intros H. injection H as <- _ _.
    exists (data_of (firstn j (rx w))), w1, j, 0%nat. now repeat split.
Qed.

Lemma flushed_bytes_witness :
  exists w' flushed w1 j k,
    send_and_wait_for 100 sample_message [sample_ack] (8 # 10) (12 # 100) 4096
      true (open_link [Chunk sample_ack; ReadTimeout; Chunk [7]])
    = Some (Ok ([7], None), w')
    /\ _flush_input 100 (8 # 100)
         (set_locked true
            (log EvAcquire (open_link [Chunk sample_ack; ReadTimeout; Chunk [7]])))
       = Some (Ok flushed, w1)
    /\ flushed = data_of (firstn j [Chunk sample_ack; ReadTimeout; Chunk [7]])
    /\ [7] = lastn 4096
               (data_of (firstn k (skipn j [Chunk sample_ack; ReadTimeout;
                                            Chunk [7]]))).
Proof.
  destruct (send_and_wait_for 100 sample_message [sample_ack] (8 # 10) (12 # 100)
              4096 true (open_link [Chunk sample_ack; ReadTimeout; Chunk [7]]))
    as [[r w'] |] eqn:E.
  - pose proof E as E'. vm_compute in E'. injection E' as E' _. subst r.
    destruct (flushed_bytes_stay_out_of_the_buffer 100 sample_message
                [sample_ack] (8 # 10) (12 # 100) 4096
                (open_link [Chunk sample_ack; ReadTimeout; Chunk [7]]) w' [7]
                None ltac:(lia) eq_refl eq_refl E)
      as (flushed & w1 & j & k & F & D & _ & Hb).
    exists w', flushed, w1, j, k. split; [reflexivity|].
    split; [exact F|]. split; [exact D | exact Hb].
  - vm_compute in E. discriminate E.
Defined.
